(** * mop: the line editor and the market fetch, embedded and verified

    A shallow embedding of [src/line_editor.go] (the single-line editor
    that adds and removes tickers) and of the market part of the
    repository ([Market.Fetch], [Market.extract], [assign], [Market.Ok]),
    followed by the properties of the specification that concern them.

    Conventions.
    - A Go [string] is a sequence of bytes: Rocq's [string].  [len] is the
      byte length, [s[a:b]] the byte slice.
    - A Go [int] and a [rune] are integers [Z]; no computation below comes
      near the 64-bit range.
    - A method with a pointer receiver is a computation on the state the
      receiver points to: a function [S -> outcome A * S].  A run-time
      panic ends the computation with [Panicked] and the state as it was
      at that moment, which is what a deferred [recover] then observes. *)

From Stdlib Require Import ZArith List Lia Bool.
From Stdlib Require Import Strings.String Strings.Ascii.
From Stdlib Require Import Floats.PrimFloat Floats.SpecFloat Floats.FloatOps.
From Stdlib Require Import Numbers.DecimalString.
From stdpp Require Import base option list gmap strings.

Local Open Scope string_scope.
Local Open Scope Z_scope.

(* ================================================================= *)
(** ** The Go run time: state, panics, defer *)

(** What a panic carries: an [error] value passed to [panic], or one of
    the run-time errors the embedded code can raise. *)
Inductive panic : Type :=
| PanicError (err : string)
| IndexOutOfRange
| SliceBoundsOutOfRange
| InterfaceConversion
| AssignmentToNilMap.

Inductive outcome (A : Type) : Type :=
| Returned (a : A)
| Panicked (p : panic).
Arguments Returned {A} a.
Arguments Panicked {A} p.

Definition Go (S A : Type) : Type := S -> outcome A * S.

Definition ret {S A} (a : A) : Go S A := fun s => (Returned a, s).

Definition bind {S A B} (c : Go S A) (k : A -> Go S B) : Go S B :=
  fun s => match c s with
           | (Returned a, s') => k a s'
           | (Panicked p, s') => (Panicked p, s')
           end.

Definition throw {S A} (p : panic) : Go S A := fun s => (Panicked p, s).
Definition gets {S A} (f : S -> A) : Go S A := fun s => (Returned (f s), s).
Definition modify {S} (f : S -> S) : Go S unit := fun s => (Returned tt, f s).

(** [defer d] around a function body: [d] runs when the body ends, whether
    it returned or panicked; the body's outcome stands unless [d] itself
    panics. *)
Definition defer {S A} (d : Go S unit) (body : Go S A) : Go S A :=
  fun s => match body s with
           | (o, s') => match d s' with
                        | (Returned _, s'') => (o, s'')
                        | (Panicked p, s'') => (Panicked p, s'')
                        end
           end.

Declare Scope go_scope.
Delimit Scope go_scope with go.
Notation "x <- c ;; k" := (bind c (fun x => k))
  (at level 100, c at next level, right associativity) : go_scope.
Notation "c ;; k" := (bind c (fun _ => k))
  (at level 100, right associativity) : go_scope.

(** The computation ends in a panic. *)
Definition panics {S A} (c : Go S A) (s : S) : Prop :=
  exists p s', c s = (Panicked p, s').

(* ================================================================= *)
(** ** Go strings *)

Definition len (s : string) : Z := Z.of_nat (String.length s).

(** [s[lo:hi]]: a run-time panic unless [0 <= lo <= hi <= len(s)]. *)
Definition slice {S} (s : string) (lo hi : Z) : Go S string :=
  if (0 <=? lo) && (lo <=? hi) && (hi <=? len s)
  then ret (substring (Z.to_nat lo) (Z.to_nat (hi - lo)) s)
  else throw SliceBoundsOutOfRange.

Definition byte_of (n : Z) : ascii := ascii_of_N (Z.to_N n).
Definition code_of (c : ascii) : Z := Z.of_N (N_of_ascii c).

(** [string(r)] for a rune [r]: its UTF-8 encoding, and the encoding of
    U+FFFD for a value that is not a Unicode scalar value. *)
Definition string_of_rune (r : Z) : string :=
  if (r <? 0) || (0x10FFFF <? r) || ((0xD800 <=? r) && (r <=? 0xDFFF)) then
    String (byte_of 0xEF) (String (byte_of 0xBF) (String (byte_of 0xBD) ""))
  else if r <? 0x80 then
    String (byte_of r) ""
  else if r <? 0x800 then
    String (byte_of (Z.lor 0xC0 (Z.shiftr r 6)))
   (String (byte_of (Z.lor 0x80 (Z.land r 0x3F))) "")
  else if r <? 0x10000 then
    String (byte_of (Z.lor 0xE0 (Z.shiftr r 12)))
   (String (byte_of (Z.lor 0x80 (Z.land (Z.shiftr r 6) 0x3F)))
   (String (byte_of (Z.lor 0x80 (Z.land r 0x3F))) ""))
  else
    String (byte_of (Z.lor 0xF0 (Z.shiftr r 18)))
   (String (byte_of (Z.lor 0x80 (Z.land (Z.shiftr r 12) 0x3F)))
   (String (byte_of (Z.lor 0x80 (Z.land (Z.shiftr r 6) 0x3F)))
   (String (byte_of (Z.lor 0x80 (Z.land r 0x3F))) ""))).

(** Go's Unicode tables, which [strings.ToUpper] and [strings.TrimSpace]
    consult only for a string that holds a byte of 0x80 or above. *)
Class Unicode : Type := {
  (** [strings.Map(unicode.ToUpper, s)] *)
  unicode_ToUpper : string -> string;
  (** [strings.TrimFunc(s, unicode.IsSpace)] *)
  unicode_TrimSpace : string -> string
}.

Module strings.

Definition is_ascii_byte (c : ascii) : bool := code_of c <? 0x80.

Fixpoint is_ascii (s : string) : bool :=
  match s with
  | EmptyString => true
  | String c s' => is_ascii_byte c && is_ascii s'
  end.

(** The table [asciiSpace]: tab, line feed, vertical tab, form feed,
    carriage return, space. *)
Definition asciiSpace (c : ascii) : bool :=
  let n := code_of c in
  (n =? 9) || (n =? 10) || (n =? 11) || (n =? 12) || (n =? 13) || (n =? 32).

Definition upper_byte (c : ascii) : ascii :=
  let n := code_of c in
  if (97 <=? n) && (n <=? 122) then byte_of (n - 32) else c.

Fixpoint map_bytes (f : ascii -> ascii) (s : string) : string :=
  match s with
  | EmptyString => EmptyString
  | String c s' => String (f c) (map_bytes f s')
  end.

(** [strings.ToUpper]: an ASCII-only string has its bytes 'a'..'z' mapped
    to 'A'..'Z'; any other string goes through the Unicode tables. *)
Definition ToUpper `{Unicode} (s : string) : string :=
  if is_ascii s then map_bytes upper_byte s else unicode_ToUpper s.

Fixpoint trim_left (s : string) : string :=
  match s with
  | EmptyString => EmptyString
  | String c s' => if asciiSpace c then trim_left s' else s
  end.

(** Drops the white space at the end: the string read from the right. *)
Fixpoint trim_right (s : string) : string :=
  match s with
  | EmptyString => EmptyString
  | String c s' =>
      match trim_right s' with
      | EmptyString => if asciiSpace c then EmptyString else String c EmptyString
      | t => String c t
      end
  end.

(** [strings.TrimSpace]: the ASCII fast path trims the six bytes of
    [asciiSpace] at both ends; a string with a byte of 0x80 or above is
    trimmed by [unicode.IsSpace]. *)
Definition TrimSpace `{Unicode} (s : string) : string :=
  if is_ascii s then trim_right (trim_left s) else unicode_TrimSpace s.

End strings.

Module regexp.

(** The character class of the expression [[,\s]+]: a comma, or one of
    the bytes that [\s] stands for in Go's syntax (tab, line feed, form
    feed, carriage return, space; not the vertical tab). *)
Definition in_class (c : ascii) : bool :=
  let n := code_of c in
  (n =? 44) || (n =? 9) || (n =? 10) || (n =? 12) || (n =? 13) || (n =? 32).

(** [FindAllStringIndex(s, -1)] for [[,\s]+]: the maximal runs of class
    bytes, each as (start, end), from left to right.  [off] is the index
    of the first byte of [s]; [run] is the start of the run being read. *)
Fixpoint find_all (off : nat) (run : option nat) (s : string) : list (nat * nat) :=
  match s with
  | EmptyString =>
      match run with Some b => [(b, off)] | None => [] end
  | String c s' =>
      if in_class c then
        find_all (S off) (Some (match run with Some b => b | None => off end)) s'
      else
        match run with
        | Some b => (b, off) :: find_all (S off) None s'
        | None => find_all (S off) None s'
        end
  end.

(** The loop of [Regexp.Split] over the matches, with its variables
    [beg], [end] and [strings]. *)
Fixpoint split_loop (s : string) (matches : list (nat * nat))
    (beg end_ : nat) (strs : list string) : nat * nat * list string :=
  match matches with
  | [] => (beg, end_, strs)
  | (m0, m1) :: rest =>
      let end_ := m0 in
      let strs :=
        if Nat.eqb m1 0 then strs
        else (strs ++ [substring beg (end_ - beg)%nat s])%list in
      split_loop s rest m1 end_ strs
  end.

(** [regexp.MustCompile(`[,\s]+`).Split(s, -1)]. *)
Definition Split (s : string) : list string :=
  if Nat.eqb (String.length s) 0 then [""]
  else
    match split_loop s (find_all 0 None s) 0 0 [] with
    | (beg, end_, strs) =>
        if Nat.eqb end_ (String.length s) then strs
        else (strs ++ [substring beg (String.length s - beg)%nat s])%list
    end.

End regexp.

(* ================================================================= *)
(** ** termbox-go: events and key codes *)

Module termbox.

(** The two fields of [termbox.Event] the editor reads: [Key] (a
    [uint16]) and [Ch] (a [rune]). *)
Record Event : Type := { Key : Z; Ch : Z }.

Definition KeyArrowLeft : Z := 0xFFFF - 20.
Definition KeyArrowRight : Z := 0xFFFF - 21.
Definition KeyCtrlA : Z := 0x01.
Definition KeyCtrlB : Z := 0x02.
Definition KeyCtrlE : Z := 0x05.
Definition KeyCtrlF : Z := 0x06.
Definition KeyBackspace : Z := 0x08.
Definition KeyEnter : Z := 0x0D.
Definition KeyEsc : Z := 0x1B.
Definition KeySpace : Z := 0x20.
Definition KeyBackspace2 : Z := 0x7F.

End termbox.

(* ================================================================= *)
(** ** The editor's collaborators *)

(** A call the editor makes on its [Screen] or on termbox.  The screen
    is represented by the calls made on it, the latest last. *)
Inductive call : Type :=
| DrawLine (x y : Z) (str : string)   (* screen.DrawLine(x, y, str) *)
| ClearLine (x y : Z)                 (* screen.ClearLine(x, y) *)
| Draw                                (* screen.Draw(self.quotes) *)
| SetCursor (x y : Z)                 (* termbox.SetCursor(x, y) *)
| HideCursor                          (* termbox.HideCursor() *)
| Flush.                              (* termbox.Flush() *)

(** [Quotes] is defined in a file of the repository that is not part of
    this development; the editor uses three things of it. *)
Class QuotesAPI : Type := {
  Quotes : Type;
  (** [quotes.profile.Tickers] *)
  profile_Tickers : Quotes -> list string;
  (** [quotes.AddTickers(tickers)]: the count it reports, and the quotes
      afterwards; the error it also returns is dropped by the editor. *)
  AddTickers : list string -> Quotes -> Z * Quotes;
  (** [quotes.RemoveTickers(tickers)], likewise. *)
  RemoveTickers : list string -> Quotes -> Z * Quotes
}.

(* ================================================================= *)
(** ** line_editor.go *)

Record LineEditor : Type := {
  command : Z;
  prompt : string;
  cursor : Z;
  input : string
}.

(** What a [*LineEditor] reaches: its own fields, and the screen and the
    quotes its two pointers refer to. *)
Record World `{QuotesAPI} : Type := {
  self : LineEditor;
  screen : list call;
  quotes : Quotes
}.

Section Editor.
Context `{Unicode} `{QuotesAPI}.

Definition Editor (A : Type) : Type := Go World A.

Definition set_self (f : LineEditor -> LineEditor) : Editor unit :=
  modify (fun w => {| self := f (self w); screen := screen w; quotes := quotes w |}).

Definition set_prompt (p : string) : Editor unit :=
  set_self (fun e => {| command := command e; prompt := p; cursor := cursor e; input := input e |}).
Definition set_command (c : Z) : Editor unit :=
  set_self (fun e => {| command := c; prompt := prompt e; cursor := cursor e; input := input e |}).
Definition set_cursor (n : Z) : Editor unit :=
  set_self (fun e => {| command := command e; prompt := prompt e; cursor := n; input := input e |}).
Definition set_input (s : string) : Editor unit :=
  set_self (fun e => {| command := command e; prompt := prompt e; cursor := cursor e; input := s |}).

(** A call on the screen or on termbox, recorded. *)
Definition emit (c : call) : Editor unit :=
  modify (fun w => {| self := self w; screen := (screen w ++ [c])%list; quotes := quotes w |}).

Definition set_quotes (q : Quotes) : Editor unit :=
  modify (fun w => {| self := self w; screen := screen w; quotes := q |}).

(** [new(LineEditor)]: every field at its zero value. *)
Definition new_LineEditor : LineEditor :=
  {| command := 0; prompt := ""; cursor := 0; input := "" |}.

(** [Initialize] stores the two pointers. *)
Definition Initialize (scr : list call) (q : Quotes) (e : LineEditor) : World :=
  {| self := e; screen := scr; quotes := q |}.

(** The map literal of [Prompt]: '+' and '-'. *)
Definition prompts (command : Z) : option string :=
  if command =? 43 then Some "Add tickers: "
  else if command =? 45 then Some "Remove tickers: "
  else None.

Definition Prompt (command : Z) : Editor unit :=
  (match prompts command with
   | Some text =>
       set_prompt text ;;
       set_command command ;;
       p <- gets (fun w => prompt (self w)) ;;
       emit (DrawLine 0 3 ("<white>" ++ p ++ "</>")) ;;
       emit (SetCursor (len p) 3) ;;
       emit Flush
   | None => ret tt
   end)%go.

Definition move_left : Editor unit :=
  (c <- gets (fun w => cursor (self w)) ;;
   if 0 <? c then
     set_cursor (c - 1) ;;
     p <- gets (fun w => prompt (self w)) ;;
     c' <- gets (fun w => cursor (self w)) ;;
     emit (SetCursor (len p + c') 3)
   else ret tt)%go.

Definition move_right : Editor unit :=
  (c <- gets (fun w => cursor (self w)) ;;
   i <- gets (fun w => input (self w)) ;;
   if c <? len i then
     set_cursor (c + 1) ;;
     p <- gets (fun w => prompt (self w)) ;;
     c' <- gets (fun w => cursor (self w)) ;;
     emit (SetCursor (len p + c') 3)
   else ret tt)%go.

Definition jump_to_beginning : Editor unit :=
  (set_cursor 0 ;;
   p <- gets (fun w => prompt (self w)) ;;
   c <- gets (fun w => cursor (self w)) ;;
   emit (SetCursor (len p + c) 3))%go.

Definition jump_to_end : Editor unit :=
  (i <- gets (fun w => input (self w)) ;;
   set_cursor (len i) ;;
   p <- gets (fun w => prompt (self w)) ;;
   c <- gets (fun w => cursor (self w)) ;;
   emit (SetCursor (len p + c) 3))%go.

Definition delete_previous_character : Editor unit :=
  (c <- gets (fun w => cursor (self w)) ;;
   i <- gets (fun w => input (self w)) ;;
   if 0 <? c then
     (if c <? len i then
        (* Remove character in the middle of the input string. *)
        a <- slice i 0 (c - 1) ;;
        b <- slice i c (len i) ;;
        set_input (a ++ b)
      else
        (* Remove last input character. *)
        a <- slice i 0 (len i - 1) ;;
        set_input a) ;;
     p <- gets (fun w => prompt (self w)) ;;
     i' <- gets (fun w => input (self w)) ;;
     emit (DrawLine (len p) 3 (i' ++ " ")) ;;
     move_left
   else ret tt)%go.

Definition insert_character (ch : Z) : Editor unit :=
  (c <- gets (fun w => cursor (self w)) ;;
   i <- gets (fun w => input (self w)) ;;
   (if c <? len i then
      (* Insert the character in the middle of the input string. *)
      a <- slice i 0 c ;;
      b <- slice i c (len i) ;;
      set_input (a ++ string_of_rune ch ++ b)
    else
      (* Append the character to the end of the input string. *)
      set_input (i ++ string_of_rune ch)) ;;
   p <- gets (fun w => prompt (self w)) ;;
   i' <- gets (fun w => input (self w)) ;;
   emit (DrawLine (len p) 3 i') ;;
   move_right)%go.

Definition tokenize : Editor (list string) :=
  (i <- gets (fun w => input (self w)) ;;
   let input := strings.ToUpper (strings.TrimSpace i) in
   ret (regexp.Split input))%go.

(** The loop [for i := before; i > after; i-- { ClearLine(0, i + 4) }]:
    [n] counts the iterations that remain, [before - after] at the start
    when that is positive and none otherwise. *)
Fixpoint clear_rows (n : nat) (i : Z) : Editor unit :=
  match n with
  | O => ret tt
  | S n' => (emit (ClearLine 0 (i + 4)) ;; clear_rows n' (i - 1))%go
  end.

Definition execute : Editor unit :=
  (cmd <- gets (fun w => command (self w)) ;;
   if cmd =? 43 then
     tickers <- tokenize ;;
     if 0 <? Z.of_nat (length tickers) then
       q <- gets quotes ;;
       let (added, q') := AddTickers tickers q in
       set_quotes q' ;;
       if 0 <? added then emit Draw else ret tt
     else ret tt
   else if cmd =? 45 then
     tickers <- tokenize ;;
     if 0 <? Z.of_nat (length tickers) then
       q <- gets quotes ;;
       let before := Z.of_nat (length (profile_Tickers q)) in
       let (removed, q') := RemoveTickers tickers q in
       set_quotes q' ;;
       if 0 <? removed then
         emit Draw ;;
         let after := before - removed in
         clear_rows (Z.to_nat (before - after)) before ;;
         (* Hide quotes header is the are no tickers left. *)
         if after =? 0 then emit (ClearLine 0 4) else ret tt
       else ret tt
     else ret tt
   else ret tt)%go.

Definition done : Editor bool :=
  (emit (ClearLine 0 3) ;;
   emit HideCursor ;;
   ret true)%go.

Definition Handle (ev : termbox.Event) : Editor bool :=
  let key := termbox.Key ev in
  defer (emit Flush)
    (if key =? termbox.KeyEsc then
       done
     else if key =? termbox.KeyEnter then
       execute ;; done
     else
       (if (key =? termbox.KeyBackspace) || (key =? termbox.KeyBackspace2) then
          delete_previous_character
        else if (key =? termbox.KeyCtrlB) || (key =? termbox.KeyArrowLeft) then
          move_left
        else if (key =? termbox.KeyCtrlF) || (key =? termbox.KeyArrowRight) then
          move_right
        else if key =? termbox.KeyCtrlA then
          jump_to_beginning
        else if key =? termbox.KeyCtrlE then
          jump_to_end
        else if key =? termbox.KeySpace then
          insert_character 32
        else
          if negb (termbox.Ch ev =? 0) then insert_character (termbox.Ch ev)
          else ret tt) ;;
       ret false)%go.

(** The events of a list handled one after the other by the same
    editor. *)
Fixpoint Handle_each (evs : list termbox.Event) : Editor unit :=
  match evs with
  | [] => ret tt
  | ev :: rest => (Handle ev ;; Handle_each rest)%go
  end.

(** The invariant of the session state: [0 <= cursor <= len(input)]. *)
Definition cursor_in_bounds (w : World) : Prop :=
  0 <= cursor (self w) <= len (input (self w)).

(** A computation that, started within the bounds, returns, within the
    bounds. *)
Definition keeps_bounds {A} (c : Editor A) : Prop :=
  forall w, cursor_in_bounds w ->
    exists a w', c w = (Returned a, w') /\ cursor_in_bounds w'.

(** A computation that returns [a] and leaves the fields of the editor
    as they are. *)
Definition keeps_self {A} (c : Editor A) (a : A) : Prop :=
  forall w, exists w', c w = (Returned a, w') /\ self w' = self w.

(** The keys that end a session. *)
Definition ends_session (ev : termbox.Event) : bool :=
  (termbox.Key ev =? termbox.KeyEsc) || (termbox.Key ev =? termbox.KeyEnter).

End Editor.

(* ================================================================= *)
(** ** A ticker set and a terminal for closed examples *)

(** The Unicode tables left out.  A buffer of ASCII bytes never reaches
    them; the closed examples below use such buffers only. *)
Definition ascii_only : Unicode :=
  {| unicode_ToUpper := fun s => s; unicode_TrimSpace := fun s => s |}.

Section TickerSet.
Context `{Unicode}.

(** Modelled from the spec: the normalization of a symbol by the ticker
    set, whose code is not part of this development (spec 4.4:
    "Normalizes each symbol (trim, uppercase)"). *)
Definition normalize (symbol : string) : string :=
  strings.ToUpper (strings.TrimSpace symbol).

(** Modelled from the spec: [AddTickers], whose code is not part of this
    development (spec 4.4: "skips symbols already present, appends new
    ones preserving input order, returns how many were actually added";
    "empty string after normalization is ignored"). *)
Fixpoint TickerSet_Add (symbols set : list string) : Z * list string :=
  match symbols with
  | [] => (0, set)
  | symbol :: rest =>
      let n := normalize symbol in
      if String.eqb n "" || existsb (String.eqb n) set then TickerSet_Add rest set
      else let (added, set') := TickerSet_Add rest (set ++ [n])%list in
           (added + 1, set')
  end.

(** Modelled from the spec: [RemoveTickers], whose code is not part of
    this development (spec 4.4: "removes matching entries, preserving
    relative order of survivors; returns count actually removed"). *)
Definition TickerSet_Remove (symbols set : list string) : Z * list string :=
  let gone := map normalize symbols in
  let set' := List.filter (fun t => negb (existsb (String.eqb t) gone)) set in
  (Z.of_nat (length set) - Z.of_nat (length set'), set').

Definition TickerSet : QuotesAPI :=
  {| Quotes := list string;
     profile_Tickers := fun set => set;
     AddTickers := TickerSet_Add;
     RemoveTickers := TickerSet_Remove |}.

End TickerSet.

(** An editor in the middle of a session, on a screen with no call made
    yet. *)
Definition session (command : Z) (buffer : string) (cursor : Z)
    (tickers : list string) : @World (@TickerSet ascii_only) :=
  @Build_World (@TickerSet ascii_only)
    {| command := command;
       prompt := if command =? 43 then "Add tickers: " else "Remove tickers: ";
       cursor := cursor; input := buffer |}
    [] tickers.

(** The event of a key with no character, and of a character. *)
Definition key (k : Z) : termbox.Event := {| termbox.Key := k; termbox.Ch := 0 |}.
Definition char (ch : Z) : termbox.Event := {| termbox.Key := 0; termbox.Ch := ch |}.

(* ================================================================= *)
(** ** Go maps and encoding/json *)

(** A Go map with string keys: [None] is the nil map, which reads as an
    empty map and cannot be written. *)
Definition gomap (V : Type) : Type := option (gmap string V).

(** [make(map[string]V)] *)
Definition make {V} : gomap V := Some ∅.

(** A JSON text, as encoding/json reads it.  A number is the [float64] it
    is read as; the members of an object come in the order of the text,
    with repeated names if the text repeats them. *)
#[local] Set Warnings "-register-all".
Inductive json : Type :=
| JNull
| JBool (b : bool)
| JNumber (f : float)
| JString (s : string)
| JArray (elems : list json)
| JObject (members : list (string * json)).

(** An [interface{}] that [json.Unmarshal] has filled holds the Go value
    of a JSON value ([nil], [bool], [float64], [string], [[]interface{}]
    or [map[string]interface{}]) and is represented by that JSON value;
    [JNull] is the nil interface. *)
Definition iface : Type := json.

(** [m[k]] for a map of interfaces: the nil interface when [m] is nil or
    has no key [k]. *)
Definition map_index (m : gomap iface) (k : string) : iface :=
  match m with
  | Some g => match g !! k with Some v => v | None => JNull end
  | None => JNull
  end.

(** [v.(float64)] *)
Definition assert_float64 {S} (v : iface) : Go S float :=
  match v with
  | JNumber f => ret f
  | _ => throw InterfaceConversion
  end.

(** [l[i]] for a slice. *)
Definition index {S A} (l : list A) (i : Z) : Go S A :=
  match (if 0 <=? i then l !! Z.to_nat i else None) with
  | Some x => ret x
  | None => throw IndexOutOfRange
  end.

Module encoding_json.

(** The members of a JSON object stored into a Go map, each value read
    by [dec]; a later member replaces an earlier one of the same name.
    [None]: some value does not fit the element type. *)
Definition object {V} (dec : json -> option V) (members : list (string * json))
    (into : gmap string V) : option (gmap string V) :=
  fold_left
    (fun acc kv => match acc, dec (snd kv) with
                   | Some g, Some x => Some (<[fst kv := x]> g)
                   | _, _ => None
                   end)
    members (Some into).

(** Into a [map[string]interface{}]. *)
Definition to_entry (v : json) : option (gomap iface) :=
  match v with
  | JNull => Some None
  | JObject members =>
      match object Some members ∅ with
      | Some g => Some (Some g)
      | None => None
      end
  | _ => None
  end.

(** Into a [[]map[string]interface{}]; the nil slice is the empty list. *)
Definition to_entries (v : json) : option (list (gomap iface)) :=
  match v with
  | JNull => Some []
  | JArray elems => mapM to_entry elems
  | _ => None
  end.

(** Into a [map[string][]map[string]interface{}]. *)
Definition to_section (v : json) : option (gomap (list (gomap iface))) :=
  match v with
  | JNull => Some None
  | JObject members =>
      match object to_entries members ∅ with
      | Some g => Some (Some g)
      | None => None
      end
  | _ => None
  end.

(** [json.Unmarshal(body, &d)] for [d] of type
    [map[string]map[string][]map[string]interface{}], holding the empty
    map before the call.  [body] is the JSON text of the response, [None]
    when the bytes are not a JSON text.  The result is the error, or [d]
    after the call. *)
Definition Unmarshal (body : option json)
  : string + gomap (gomap (list (gomap iface))) :=
  match body with
  | None => inl "invalid character"
  | Some JNull => inr None
  | Some (JObject members) =>
      match object to_section members ∅ with
      | Some g => inr (Some g)
      | None => inl "json: cannot unmarshal"
      end
  | Some _ => inl "json: cannot unmarshal"
  end.

End encoding_json.

(* ================================================================= *)
(** ** The market *)

(** Market stores current market information displayed in the top three
    lines of the screen. *)
Record Market : Type := {
  IsClosed : bool;              (* True when U.S. markets are closed. *)
  Dow : gomap string;
  Nasdaq : gomap string;
  Sp500 : gomap string;
  Btc : gomap string;
  Tokyo : gomap string;
  HongKong : gomap string;
  London : gomap string;
  Frankfurt : gomap string;
  Yield : gomap string;
  Silver : gomap string;
  Yen : gomap string;
  Rub : gomap string;
  Gbp : gomap string;
  Euro : gomap string;
  Gold : gomap string;
  errors : string;              (* Error(s), if any. *)
  url : string;                 (* URL with symbols to fetch data *)
  cookies : string;             (* cookies for auth *)
  crumb : string                (* crumb for the cookies *)
}.

Definition set_Dow (v : gomap string) (m : Market) : Market :=
  {| IsClosed := IsClosed m; Dow := v; Nasdaq := Nasdaq m; Sp500 := Sp500 m;
     Btc := Btc m; Tokyo := Tokyo m; HongKong := HongKong m;
     London := London m; Frankfurt := Frankfurt m; Yield := Yield m;
     Silver := Silver m; Yen := Yen m; Rub := Rub m; Gbp := Gbp m;
     Euro := Euro m; Gold := Gold m; errors := errors m; url := url m;
     cookies := cookies m; crumb := crumb m |}.
Definition set_Nasdaq (v : gomap string) (m : Market) : Market :=
  {| IsClosed := IsClosed m; Dow := Dow m; Nasdaq := v; Sp500 := Sp500 m;
     Btc := Btc m; Tokyo := Tokyo m; HongKong := HongKong m;
     London := London m; Frankfurt := Frankfurt m; Yield := Yield m;
     Silver := Silver m; Yen := Yen m; Rub := Rub m; Gbp := Gbp m;
     Euro := Euro m; Gold := Gold m; errors := errors m; url := url m;
     cookies := cookies m; crumb := crumb m |}.
Definition set_Sp500 (v : gomap string) (m : Market) : Market :=
  {| IsClosed := IsClosed m; Dow := Dow m; Nasdaq := Nasdaq m; Sp500 := v;
     Btc := Btc m; Tokyo := Tokyo m; HongKong := HongKong m;
     London := London m; Frankfurt := Frankfurt m; Yield := Yield m;
     Silver := Silver m; Yen := Yen m; Rub := Rub m; Gbp := Gbp m;
     Euro := Euro m; Gold := Gold m; errors := errors m; url := url m;
     cookies := cookies m; crumb := crumb m |}.
Definition set_Btc (v : gomap string) (m : Market) : Market :=
  {| IsClosed := IsClosed m; Dow := Dow m; Nasdaq := Nasdaq m;
     Sp500 := Sp500 m; Btc := v; Tokyo := Tokyo m; HongKong := HongKong m;
     London := London m; Frankfurt := Frankfurt m; Yield := Yield m;
     Silver := Silver m; Yen := Yen m; Rub := Rub m; Gbp := Gbp m;
     Euro := Euro m; Gold := Gold m; errors := errors m; url := url m;
     cookies := cookies m; crumb := crumb m |}.
Definition set_Tokyo (v : gomap string) (m : Market) : Market :=
  {| IsClosed := IsClosed m; Dow := Dow m; Nasdaq := Nasdaq m;
     Sp500 := Sp500 m; Btc := Btc m; Tokyo := v; HongKong := HongKong m;
     London := London m; Frankfurt := Frankfurt m; Yield := Yield m;
     Silver := Silver m; Yen := Yen m; Rub := Rub m; Gbp := Gbp m;
     Euro := Euro m; Gold := Gold m; errors := errors m; url := url m;
     cookies := cookies m; crumb := crumb m |}.
Definition set_HongKong (v : gomap string) (m : Market) : Market :=
  {| IsClosed := IsClosed m; Dow := Dow m; Nasdaq := Nasdaq m;
     Sp500 := Sp500 m; Btc := Btc m; Tokyo := Tokyo m; HongKong := v;
     London := London m; Frankfurt := Frankfurt m; Yield := Yield m;
     Silver := Silver m; Yen := Yen m; Rub := Rub m; Gbp := Gbp m;
     Euro := Euro m; Gold := Gold m; errors := errors m; url := url m;
     cookies := cookies m; crumb := crumb m |}.
Definition set_London (v : gomap string) (m : Market) : Market :=
  {| IsClosed := IsClosed m; Dow := Dow m; Nasdaq := Nasdaq m;
     Sp500 := Sp500 m; Btc := Btc m; Tokyo := Tokyo m;
     HongKong := HongKong m; London := v; Frankfurt := Frankfurt m;
     Yield := Yield m; Silver := Silver m; Yen := Yen m; Rub := Rub m;
     Gbp := Gbp m; Euro := Euro m; Gold := Gold m; errors := errors m;
     url := url m; cookies := cookies m; crumb := crumb m |}.
Definition set_Frankfurt (v : gomap string) (m : Market) : Market :=
  {| IsClosed := IsClosed m; Dow := Dow m; Nasdaq := Nasdaq m;
     Sp500 := Sp500 m; Btc := Btc m; Tokyo := Tokyo m;
     HongKong := HongKong m; London := London m; Frankfurt := v;
     Yield := Yield m; Silver := Silver m; Yen := Yen m; Rub := Rub m;
     Gbp := Gbp m; Euro := Euro m; Gold := Gold m; errors := errors m;
     url := url m; cookies := cookies m; crumb := crumb m |}.
Definition set_Yield (v : gomap string) (m : Market) : Market :=
  {| IsClosed := IsClosed m; Dow := Dow m; Nasdaq := Nasdaq m;
     Sp500 := Sp500 m; Btc := Btc m; Tokyo := Tokyo m;
     HongKong := HongKong m; London := London m; Frankfurt := Frankfurt m;
     Yield := v; Silver := Silver m; Yen := Yen m; Rub := Rub m;
     Gbp := Gbp m; Euro := Euro m; Gold := Gold m; errors := errors m;
     url := url m; cookies := cookies m; crumb := crumb m |}.
Definition set_Silver (v : gomap string) (m : Market) : Market :=
  {| IsClosed := IsClosed m; Dow := Dow m; Nasdaq := Nasdaq m;
     Sp500 := Sp500 m; Btc := Btc m; Tokyo := Tokyo m;
     HongKong := HongKong m; London := London m; Frankfurt := Frankfurt m;
     Yield := Yield m; Silver := v; Yen := Yen m; Rub := Rub m; Gbp := Gbp m;
     Euro := Euro m; Gold := Gold m; errors := errors m; url := url m;
     cookies := cookies m; crumb := crumb m |}.
Definition set_Yen (v : gomap string) (m : Market) : Market :=
  {| IsClosed := IsClosed m; Dow := Dow m; Nasdaq := Nasdaq m;
     Sp500 := Sp500 m; Btc := Btc m; Tokyo := Tokyo m;
     HongKong := HongKong m; London := London m; Frankfurt := Frankfurt m;
     Yield := Yield m; Silver := Silver m; Yen := v; Rub := Rub m;
     Gbp := Gbp m; Euro := Euro m; Gold := Gold m; errors := errors m;
     url := url m; cookies := cookies m; crumb := crumb m |}.
Definition set_Rub (v : gomap string) (m : Market) : Market :=
  {| IsClosed := IsClosed m; Dow := Dow m; Nasdaq := Nasdaq m;
     Sp500 := Sp500 m; Btc := Btc m; Tokyo := Tokyo m;
     HongKong := HongKong m; London := London m; Frankfurt := Frankfurt m;
     Yield := Yield m; Silver := Silver m; Yen := Yen m; Rub := v;
     Gbp := Gbp m; Euro := Euro m; Gold := Gold m; errors := errors m;
     url := url m; cookies := cookies m; crumb := crumb m |}.
Definition set_Gbp (v : gomap string) (m : Market) : Market :=
  {| IsClosed := IsClosed m; Dow := Dow m; Nasdaq := Nasdaq m;
     Sp500 := Sp500 m; Btc := Btc m; Tokyo := Tokyo m;
     HongKong := HongKong m; London := London m; Frankfurt := Frankfurt m;
     Yield := Yield m; Silver := Silver m; Yen := Yen m; Rub := Rub m;
     Gbp := v; Euro := Euro m; Gold := Gold m; errors := errors m;
     url := url m; cookies := cookies m; crumb := crumb m |}.
Definition set_Euro (v : gomap string) (m : Market) : Market :=
  {| IsClosed := IsClosed m; Dow := Dow m; Nasdaq := Nasdaq m;
     Sp500 := Sp500 m; Btc := Btc m; Tokyo := Tokyo m;
     HongKong := HongKong m; London := London m; Frankfurt := Frankfurt m;
     Yield := Yield m; Silver := Silver m; Yen := Yen m; Rub := Rub m;
     Gbp := Gbp m; Euro := v; Gold := Gold m; errors := errors m;
     url := url m; cookies := cookies m; crumb := crumb m |}.
Definition set_Gold (v : gomap string) (m : Market) : Market :=
  {| IsClosed := IsClosed m; Dow := Dow m; Nasdaq := Nasdaq m;
     Sp500 := Sp500 m; Btc := Btc m; Tokyo := Tokyo m;
     HongKong := HongKong m; London := London m; Frankfurt := Frankfurt m;
     Yield := Yield m; Silver := Silver m; Yen := Yen m; Rub := Rub m;
     Gbp := Gbp m; Euro := Euro m; Gold := v; errors := errors m;
     url := url m; cookies := cookies m; crumb := crumb m |}.
Definition set_errors (v : string) (m : Market) : Market :=
  {| IsClosed := IsClosed m; Dow := Dow m; Nasdaq := Nasdaq m;
     Sp500 := Sp500 m; Btc := Btc m; Tokyo := Tokyo m;
     HongKong := HongKong m; London := London m; Frankfurt := Frankfurt m;
     Yield := Yield m; Silver := Silver m; Yen := Yen m; Rub := Rub m;
     Gbp := Gbp m; Euro := Euro m; Gold := Gold m; errors := v; url := url m;
     cookies := cookies m; crumb := crumb m |}.

Definition marketURL (crumb symbols : string) : string :=
  "https://query1.finance.yahoo.com/v7/finance/quote?crumb=" ++ crumb
  ++ "&symbols=" ++ symbols.
Definition marketURLQueryParts : string :=
  "&range=1d&interval=5m&indicators=close&includeTimestamps=false&includePrePost=false&corsDomain=finance.yahoo.com&.tsrc=finance".

(** [NewMarket]; the cookies and the crumb are what [fetchCookies] and
    [fetchCrumb] obtained from the network.  [Rub] and [Gbp] are not
    made, and stay nil. *)
Definition NewMarket (fetched_cookies fetched_crumb : string) : Market :=
  {| IsClosed := false;
     Dow := make; Nasdaq := make; Sp500 := make; Btc := make;
     Tokyo := make; HongKong := make; London := make; Frankfurt := make;
     Yield := make; Silver := make; Yen := make;
     Rub := None; Gbp := None;
     Euro := make; Gold := make;
     errors := "";
     url := marketURL fetched_crumb
              "^DJI,^IXIC,^GSPC,BTC-USD,^N225,^HSI,^FTSE,^GDAXI,JPY=X,RUB=X,GBP=X,EUR=X,^TNX,SI=F,GC=F"
            ++ marketURLQueryParts;
     cookies := fetched_cookies;
     crumb := fetched_crumb |}.

(** What the network gives one call of [Fetch]: an error from
    [http.NewRequest], from [client.Do] or from [ioutil.ReadAll], or the
    body of the response. *)
Inductive transport : Type :=
| NewRequestError (err : string)
| DoError (err : string)
| ReadAllError (err : string)
| Body (body : option json).

Section Market.
(** [float2Str] is defined in a file of the repository that is not part
    of this development. *)
Variable float2Str : float -> string.

Definition assign {S} (results : list (gomap iface)) (position : Z)
    (changeAsPercent : bool) : Go S (gmap string string) :=
  (let out : gmap string string := ∅ in
   r <- index results position ;;
   f <- assert_float64 (map_index r "regularMarketChange") ;;
   let out := <["change" := float2Str f]> out in
   r <- index results position ;;
   f <- assert_float64 (map_index r "regularMarketPrice") ;;
   let out := <["latest" := float2Str f]> out in
   if changeAsPercent then
     r <- index results position ;;
     f <- assert_float64 (map_index r "regularMarketChangePercent") ;;
     ret (<["change" := float2Str f ++ "%"]> out)
   else
     r <- index results position ;;
     f <- assert_float64 (map_index r "regularMarketChangePercent") ;;
     ret (<["percent" := float2Str f ++ "%"]> out))%go.

(** [d["quoteResponse"]["result"]]: a missing key gives the nil map, then
    the nil slice. *)
Definition quoteResponse_result (d : gomap (gomap (list (gomap iface))))
  : list (gomap iface) :=
  match d with
  | Some g =>
      match g !! "quoteResponse" with
      | Some (Some q) => match q !! "result" with Some l => l | None => [] end
      | _ => []
      end
  | None => []
  end.

(** [market.Yield[`name`] = `10-year Yield`]: a store into the map that
    the field holds at that moment. *)
Definition store_Yield_name : Go Market unit :=
  (y <- gets Yield ;;
   match y with
   | Some g => modify (set_Yield (Some (<["name" := "10-year Yield"]> g)))
   | None => throw AssignmentToNilMap
   end)%go.

Definition extract (body : option json) : Go Market unit :=
  match encoding_json.Unmarshal body with
  | inl err => throw (PanicError err)
  | inr d =>
      (let results := quoteResponse_result d in
       v <- assign results 0 false ;; modify (set_Dow (Some v)) ;;
       v <- assign results 1 false ;; modify (set_Nasdaq (Some v)) ;;
       v <- assign results 2 false ;; modify (set_Sp500 (Some v)) ;;
       v <- assign results 3 false ;; modify (set_Btc (Some v)) ;;
       v <- assign results 4 false ;; modify (set_Tokyo (Some v)) ;;
       v <- assign results 5 false ;; modify (set_HongKong (Some v)) ;;
       v <- assign results 6 false ;; modify (set_London (Some v)) ;;
       v <- assign results 7 false ;; modify (set_Frankfurt (Some v)) ;;

       v <- assign results 8 false ;; modify (set_Yen (Some v)) ;;
       v <- assign results 9 false ;; modify (set_Rub (Some v)) ;;
       v <- assign results 10 false ;; modify (set_Gbp (Some v)) ;;
       v <- assign results 11 false ;; modify (set_Euro (Some v)) ;;
       store_Yield_name ;;
       v <- assign results 12 false ;; modify (set_Yield (Some v)) ;;
       v <- assign results 13 false ;; modify (set_Silver (Some v)) ;;
       v <- assign results 14 false ;; modify (set_Gold (Some v)))%go
  end.

(** TBD -- CNN page doesn't seem to have market open/close indicator. *)
Definition isMarketOpen (body : option json) : option json := body.

(** The body of [Fetch], before its deferred function runs. *)
Definition Fetch_body (net : transport) : Go Market unit :=
  match net with
  | NewRequestError err => throw (PanicError err)
  | DoError err => throw (PanicError err)
  | ReadAllError err => throw (PanicError err)
  | Body body => extract (isMarketOpen body)
  end.

(** [Fetch]: the deferred function recovers from a panic, sets
    [market.errors] to the empty string, and [Fetch] returns the market
    as the panic left it. *)
Definition Fetch (net : transport) (market : Market) : Market :=
  match Fetch_body net market with
  | (Returned _, market') => market'
  | (Panicked _, market') => set_errors "" market'   (* Don't pollute the screen *)
  end.

(** The array [d["quoteResponse"]["result"]] that [extract] reads in a
    body; the empty array when [json.Unmarshal] gives an error. *)
Definition result_array (body : option json) : list (gomap iface) :=
  match encoding_json.Unmarshal body with
  | inr d => quoteResponse_result d
  | inl _ => []
  end.

(** The record of one entry of the array: its change, its price and its
    change in percent as display strings, when the entry holds the three
    numbers. *)
Definition quote_record (r : gomap iface) : option (gmap string string) :=
  match map_index r "regularMarketChange",
        map_index r "regularMarketPrice",
        map_index r "regularMarketChangePercent" with
  | JNumber change, JNumber price, JNumber percent =>
      Some (<["percent" := float2Str percent ++ "%"]>
              (<["latest" := float2Str price]>
                 (<["change" := float2Str change]> ∅)))
  | _, _, _ => None
  end.

End Market.

(** The indicator records in the order of the spec: Dow, Nasdaq, S&P500,
    Bitcoin, Tokyo, Hong Kong, London, Frankfurt, Yen, Ruble, Pound, Euro,
    10-Year-Yield, Silver, Gold. *)
Definition slots (m : Market) : list (gomap string) :=
  [Dow m; Nasdaq m; Sp500 m; Btc m; Tokyo m; HongKong m; London m; Frankfurt m;
   Yen m; Rub m; Gbp m; Euro m; Yield m; Silver m; Gold m].

(** What a market holds besides the indicator records. *)
Definition settings (m : Market) : bool * string * string * string * string :=
  (IsClosed m, errors m, url m, cookies m, crumb m).

(** The markets after each response of a list has been fetched in turn. *)
Definition Fetch_each (float2Str : float -> string) (nets : list transport)
    (m : Market) : Market :=
  fold_left (fun market net => Fetch float2Str net market) nets m.

(** A field of an indicator record; none in the nil map. *)
Definition field (record : gomap string) (k : string) : option string :=
  match record with
  | Some g => g !! k
  | None => None
  end.

(** [Ok] returns two values: 1) boolean indicating whether the error has
    occurred, and 2) the error text itself. *)
Definition Ok (market : Market) : bool * string :=
  (String.eqb (errors market) "", errors market).

(* ================================================================= *)
(** ** A formatter and responses for closed examples *)

Definition Z_to_string (z : Z) : string :=
  NilZero.string_of_uint (N.to_uint (Z.to_N z)).

(** [num / den] rounded to the nearest integer, a tie to the even one. *)
Definition round_half_even (num den : Z) : Z :=
  let q := num / den in
  let r := num mod den in
  if 2 * r <? den then q
  else if den <? 2 * r then q + 1
  else if Z.even q then q else q + 1.

(** Modelled from the spec: [float2Str], whose code is not part of this
    development (spec 4.3: "round to 2 decimal places", "sign is preserved
    as produced by the provider (no forced +)"). *)
Definition float2Str_2dp (v : float) : string :=
  match Prim2SF v with
  | S754_nan => "NaN"
  | S754_infinity s => if s then "-Inf" else "+Inf"
  | S754_zero s => (if s then "-" else "") ++ "0.00"
  | S754_finite s m e =>
      let h := if 0 <=? e then Z.pos m * 2 ^ e * 100
               else round_half_even (Z.pos m * 100) (2 ^ (- e)) in
      (if s then "-" else "") ++ Z_to_string (h / 100) ++ "."
      ++ (if h mod 100 <? 10 then "0" else "") ++ Z_to_string (h mod 100)
  end.

(** One entry of the result array, as the provider sends it. *)
Definition quote (symbol : string) (price change percent : float) : json :=
  JObject [("symbol", JString symbol);
           ("regularMarketPrice", JNumber price);
           ("regularMarketChange", JNumber change);
           ("regularMarketChangePercent", JNumber percent)].

Definition response (result : list json) : option json :=
  Some (JObject [("quoteResponse",
                  JObject [("result", JArray result); ("error", JNull)])]).

(** The fifteen entries of a full response, in the order of the request. *)
#[local] Set Warnings "-inexact-float".
Definition fifteen_quotes : list json :=
  [quote "^DJI" 34567.875 120.5 0.35; quote "^IXIC" 14000.25 (-35.75) (-0.25);
   quote "^GSPC" 4500.5 10.25 0.23; quote "BTC-USD" 43000 (-500) (-1.15);
   quote "^N225" 33000.5 150 0.46; quote "^HSI" 17000.75 (-80.5) (-0.47);
   quote "^FTSE" 7500.25 12.5 0.17; quote "^GDAXI" 16000 45.75 0.29;
   quote "JPY=X" 148.5 0.25 0.17; quote "RUB=X" 92.75 (-0.5) (-0.54);
   quote "GBP=X" 0.79 0.001 0.13; quote "EUR=X" 0.92 (-0.002) (-0.22);
   quote "^TNX" 4.25 0.03 0.71; quote "SI=F" 23.5 (-0.15) (-0.63);
   quote "GC=F" 2050.75 8.25 0.4].

(** The response with the last entry missing. *)
Definition fourteen_quotes : list json := take 14 fifteen_quotes.

(** A response with one entry more than the request asks for. *)
Definition sixteen_quotes : list json :=
  (fifteen_quotes ++ [quote "CL=F" 75.5 0.5 0.67])%list.

(** A market as [NewMarket] makes it. *)
Definition market0 : Market := NewMarket "A3=d=AQABBO" "mdeVssfeRhi".

(* ================================================================= *)
(** ** What the terminal shows *)

(** Where the terminal cursor is after a list of calls: at the place of
    the last [SetCursor], nowhere after [HideCursor]; drawing and clearing
    lines do not move it. *)
Definition after_call (at_ : option (Z * Z)) (c : call) : option (Z * Z) :=
  match c with
  | SetCursor x y => Some (x, y)
  | HideCursor => None
  | _ => at_
  end.

Definition terminal_cursor (calls : list call) : option (Z * Z) :=
  fold_left after_call calls None.

(** The terminal cursor stands where the editor's cursor is: in row 3,
    at the column of the cursor after the prompt. *)
Definition cursor_shown (calls : list call) (e : LineEditor) : Prop :=
  terminal_cursor calls = Some (len (prompt e) + cursor e, 3).

(** A call that leaves the rows of the table alone: it draws on the edit
    row 3, or it draws nothing. *)
Definition on_edit_row (c : call) : Prop :=
  match c with
  | DrawLine _ y _ => y = 3
  | ClearLine _ y => y = 3
  | SetCursor _ y => y = 3
  | Draw => False
  | HideCursor => True
  | Flush => True
  end.

Section EditSteps.
Context `{Unicode} `{QuotesAPI}.

(** A step of editing: the state stays within the bounds; the quotes, the
    command and the prompt are as before; the calls made are on the edit
    row; and a terminal cursor that stood at the editor's cursor stands
    there again. *)
Definition edit_step (w w' : World) : Prop :=
  cursor_in_bounds w' /\
  quotes w' = quotes w /\
  command (self w') = command (self w) /\
  prompt (self w') = prompt (self w) /\
  exists calls : list call,
    screen w' = (screen w ++ calls)%list /\
    Forall on_edit_row calls /\
    (cursor_shown (screen w) (self w) -> cursor_shown (screen w') (self w')).

Definition edits (c : Editor unit) : Prop :=
  forall w, cursor_in_bounds w -> exists w', c w = (Returned tt, w') /\ edit_step w w'.

End EditSteps.

(** The keys that [Handle] has a case for. *)
Definition handled_key (k : Z) : bool :=
  (k =? termbox.KeyEsc) || (k =? termbox.KeyEnter)
  || (k =? termbox.KeyBackspace) || (k =? termbox.KeyBackspace2)
  || (k =? termbox.KeyCtrlB) || (k =? termbox.KeyArrowLeft)
  || (k =? termbox.KeyCtrlF) || (k =? termbox.KeyArrowRight)
  || (k =? termbox.KeyCtrlA) || (k =? termbox.KeyCtrlE)
  || (k =? termbox.KeySpace).

(** The bytes that a list of runes is typed as. *)
Fixpoint string_of_runes (runes : list Z) : string :=
  match runes with
  | [] => ""
  | r :: rest => string_of_rune r ++ string_of_runes rest
  end.

(** A byte of a string. *)
Definition byte_in (c : ascii) (s : string) : Prop :=
  exists i : nat, String.get i s = Some c.

(** An ASCII lower-case letter. *)
Definition is_lower (c : ascii) : bool :=
  (97 <=? code_of c) && (code_of c <=? 122).

(** The bytes of [s] at the indices from [a] up to [b] are outside the
    class of separators. *)
Definition clean (s : string) (a b : nat) : Prop :=
  forall (i : nat) (c : ascii),
    (a <= i < b)%nat -> String.get i s = Some c -> regexp.in_class c = false.

(** No byte of the token is a separator. *)
Definition separator_free (t : string) : Prop :=
  forall c : ascii, byte_in c t -> regexp.in_class c = false.

Definition first_byte (s : string) : option ascii := String.get 0 s.

Fixpoint last_byte (s : string) : option ascii :=
  match s with
  | EmptyString => None
  | String c s' => match s' with
                   | EmptyString => Some c
                   | String _ _ => last_byte s'
                   end
  end.

(** The rest [s] of a string ends outside a run of separators: its last
    byte is no separator, or it is empty and no run is being read. *)
Definition tail_open (run : option nat) (s : string) : Prop :=
  match last_byte s with
  | Some b => regexp.in_class b = false
  | None => run = None
  end.

(* ================================================================= *)
(** * Properties *)

(** ** Strings *)

Lemma len_nonneg (s : string) : 0 <= len s.
Proof. unfold len. lia. Qed.

Lemma length_append (a b : string) :
  String.length (a ++ b) = (String.length a + String.length b)%nat.
Proof. induction a as [|c a IH]; simpl; [reflexivity | now rewrite IH]. Qed.

Lemma len_append (a b : string) : len (a ++ b) = len a + len b.
Proof. unfold len. rewrite length_append. lia. Qed.

Lemma length_substring (n m : nat) (s : string) :
  (n + m <= String.length s)%nat -> String.length (substring n m s) = m.
Proof.
  revert n m. induction s as [|c s IH]; intros [|n] [|m] Hle; simpl in *;
    try reflexivity; try lia.
  - f_equal. apply (IH 0%nat m). simpl. lia.
  - apply IH. lia.
  - apply IH. lia.
Qed.

Lemma substring_whole (s : string) : substring 0 (String.length s) s = s.
Proof. induction s as [|c s IH]; simpl; [reflexivity | now rewrite IH]. Qed.

(** The bytes before an index and the bytes from it on make the string. *)
Lemma substring_join (n : nat) (s : string) :
  (n <= String.length s)%nat ->
  substring 0 n s ++ substring n (String.length s - n) s = s.
Proof.
  revert n. induction s as [|c s IH]; intros [|n] Hle; simpl in *;
    try reflexivity; try lia.
  - now rewrite substring_whole.
  - unfold String.app. simpl. f_equal. apply IH. lia.
Qed.

Lemma substring_none (n : nat) (s : string) : substring n 0 s = "".
Proof. revert n. induction s as [|c s IH]; intros [|n]; simpl; auto. Qed.

Lemma append_empty_r (s : string) : s ++ "" = s.
Proof. induction s as [|c s IH]; [reflexivity|]. unfold String.app in *. simpl. now rewrite IH. Qed.

Lemma len_string_of_rune (r : Z) : 1 <= len (string_of_rune r) <= 4.
Proof.
  unfold string_of_rune.
  repeat match goal with |- context [if ?b then _ else _] => destruct b end;
    unfold len; simpl; lia.
Qed.

Lemma slice_in_range {S} (s : string) (lo hi : Z) (st : S) :
  0 <= lo <= hi -> hi <= len s ->
  slice s lo hi st = (Returned (substring (Z.to_nat lo) (Z.to_nat (hi - lo)) s), st).
Proof.
  intros [H0 H1] H2. unfold slice.
  replace ((0 <=? lo) && (lo <=? hi) && (hi <=? len s)) with true; [reflexivity|].
  symmetry. rewrite !andb_true_iff, !Z.leb_le. auto.
Qed.

Lemma len_slice (s : string) (lo hi : Z) :
  0 <= lo <= hi -> hi <= len s ->
  len (substring (Z.to_nat lo) (Z.to_nat (hi - lo)) s) = hi - lo.
Proof.
  intros H0 H1. unfold len in *. rewrite length_substring; lia.
Qed.

Lemma len_prefix (s : string) (c : Z) :
  0 <= c <= len s -> len (substring 0 (Z.to_nat c) s) = c.
Proof. intros Hc. unfold len in *. rewrite length_substring; lia. Qed.

Lemma len_suffix (s : string) (c : Z) :
  0 <= c <= len s -> len (substring (Z.to_nat c) (Z.to_nat (len s - c)) s) = len s - c.
Proof. intros Hc. unfold len in *. rewrite length_substring; lia. Qed.

(** ** The split of the buffer *)

(** Every match of [[,\s]+] is a run of at least one byte. *)
Lemma find_all_runs (s : string) (off : nat) (run : option nat) :
  (forall b, run = Some b -> (b < off)%nat) ->
  Forall (fun m => (fst m < snd m)%nat) (regexp.find_all off run s).
Proof.
  revert off run. induction s as [|c s IH]; intros off run Hrun; simpl.
  - destruct run as [b|]; [|constructor].
    constructor; [|constructor]. simpl. now apply Hrun.
  - destruct (regexp.in_class c).
    + apply IH. intros b Hb.
      destruct run as [b'|]; inversion Hb; subst; [|lia].
      specialize (Hrun b eq_refl). lia.
    + destruct run as [b|].
      * constructor; [simpl; now apply Hrun|].
        apply IH. intros b' Hb'. discriminate.
      * apply IH. intros b' Hb'. discriminate.
Qed.

Lemma split_loop_grows (s : string) (matches : list (nat * nat))
    (beg end_ : nat) (strs : list string) :
  (length strs <= length (snd (regexp.split_loop s matches beg end_ strs)))%nat.
Proof.
  revert beg end_ strs. induction matches as [|[m0 m1] rest IH]; intros; simpl.
  - lia.
  - etransitivity; [|apply IH].
    destruct (Nat.eqb m1 0); [lia|]. rewrite length_app. lia.
Qed.

(** [Split] never returns the empty list: an empty string gives one
    empty token, and any other string at least the piece that ends it. *)
Lemma Split_not_empty (s : string) : regexp.Split s <> [].
Proof.
  unfold regexp.Split.
  destruct (Nat.eqb (String.length s) 0) eqn:E0; [discriminate|].
  pose proof (find_all_runs s 0 None) as Hruns.
  destruct (regexp.find_all 0 None s) as [|[m0 m1] rest] eqn:Em; simpl.
  - destruct s; [discriminate E0 | discriminate].
  - assert (m0 < m1)%nat as Hm.
    { assert (forall b, @None nat = Some b -> (b < 0)%nat) as Hn by discriminate.
      specialize (Hruns Hn). inversion Hruns; subst. assumption. }
    replace (Nat.eqb m1 0) with false by (symmetry; apply Nat.eqb_neq; lia).
    pose proof (split_loop_grows s rest m1 m0 ([] ++ [substring 0 (m0 - 0) s])) as Hg.
    destruct (regexp.split_loop s rest m1 m0 _) as [[beg end_] strs].
    simpl in Hg.
    destruct (Nat.eqb end_ (String.length s)).
    + destruct strs; [simpl in Hg; lia | discriminate].
    + destruct strs; discriminate.
Qed.

(** ** The editor: cursor and buffer *)

Section EditorFacts.
Context `{Unicode} `{QuotesAPI}.

Ltac run := unfold bind, gets, modify, ret, emit, set_cursor, set_input,
  set_prompt, set_command, set_quotes, set_self; simpl.

Lemma keeps_bounds_bind {A B} (c : Editor A) (k : A -> Editor B) :
  keeps_bounds c -> (forall a, keeps_bounds (k a)) -> keeps_bounds (bind c k).
Proof.
  intros Hc Hk w Hw. destruct (Hc w Hw) as (a & w1 & E1 & Hw1).
  destruct (Hk a w1 Hw1) as (b & w2 & E2 & Hw2).
  exists b, w2. unfold bind. rewrite E1. auto.
Qed.

Lemma keeps_bounds_ret {A} (a : A) : keeps_bounds (ret a : Editor A).
Proof. intros w Hw. exists a, w. auto. Qed.

Lemma keeps_bounds_emit (c : call) : keeps_bounds (emit c).
Proof. intros w Hw. eexists tt, _. split; [reflexivity | exact Hw]. Qed.

Lemma keeps_bounds_defer {A} (d : Editor unit) (c : Editor A) :
  keeps_bounds c -> keeps_bounds d -> keeps_bounds (defer d c).
Proof.
  intros Hc Hd w Hw. destruct (Hc w Hw) as (a & w1 & E1 & Hw1).
  destruct (Hd w1 Hw1) as ([] & w2 & E2 & Hw2).
  exists a, w2. unfold defer. rewrite E1, E2. auto.
Qed.

Lemma keeps_self_bounds {A} (c : Editor A) (a : A) :
  keeps_self c a -> keeps_bounds c.
Proof.
  intros Hc w Hw. destruct (Hc w) as (w' & E & Hs).
  exists a, w'. split; [exact E|]. unfold cursor_in_bounds. now rewrite Hs.
Qed.

Lemma keeps_self_bind {A B} (c : Editor A) (k : A -> Editor B) a b :
  keeps_self c a -> keeps_self (k a) b -> keeps_self (bind c k) b.
Proof.
  intros Hc Hk w. destruct (Hc w) as (w1 & E1 & S1).
  destruct (Hk w1) as (w2 & E2 & S2).
  exists w2. unfold bind. rewrite E1. split; [exact E2 | congruence].
Qed.

Lemma keeps_self_ret {A} (a : A) : keeps_self (ret a : Editor A) a.
Proof. intros w. exists w. auto. Qed.

Lemma keeps_self_emit (c : call) : keeps_self (emit c) tt.
Proof. intros w. eexists. split; reflexivity. Qed.

Lemma keeps_self_set_quotes (q : Quotes) : keeps_self (set_quotes q) tt.
Proof. intros w. eexists. split; reflexivity. Qed.

Lemma keeps_self_defer {A} (d : Editor unit) (c : Editor A) a :
  keeps_self c a -> keeps_self d tt -> keeps_self (defer d c) a.
Proof.
  intros Hc Hd w. destruct (Hc w) as (w1 & E1 & S1).
  destruct (Hd w1) as (w2 & E2 & S2).
  exists w2. unfold defer. rewrite E1, E2. split; [reflexivity | congruence].
Qed.

(** *** The six key actions *)

Lemma move_left_bounds : keeps_bounds move_left.
Proof.
  intros w [Hlo Hhi]. unfold move_left. run.
  destruct (0 <? cursor (self w)) eqn:E; simpl.
  - apply Z.ltb_lt in E. eexists tt, _. split; [reflexivity|].
    unfold cursor_in_bounds; simpl. lia.
  - eexists tt, _. split; [reflexivity|]. split; assumption.
Qed.

Lemma move_right_bounds : keeps_bounds move_right.
Proof.
  intros w [Hlo Hhi]. unfold move_right. run.
  destruct (cursor (self w) <? len (input (self w))) eqn:E; simpl.
  - apply Z.ltb_lt in E. eexists tt, _. split; [reflexivity|].
    unfold cursor_in_bounds; simpl. lia.
  - eexists tt, _. split; [reflexivity|]. split; assumption.
Qed.

Lemma jump_to_beginning_bounds : keeps_bounds jump_to_beginning.
Proof.
  intros w _. unfold jump_to_beginning. run.
  eexists tt, _. split; [reflexivity|].
  unfold cursor_in_bounds; simpl. pose proof (len_nonneg (input (self w))). lia.
Qed.

Lemma jump_to_end_bounds : keeps_bounds jump_to_end.
Proof.
  intros w _. unfold jump_to_end. run.
  eexists tt, _. split; [reflexivity|].
  unfold cursor_in_bounds; simpl. pose proof (len_nonneg (input (self w))). lia.
Qed.

(** What [insert_character] does to a state within the bounds: the
    encoding of [ch] goes between the bytes before the cursor and the
    bytes from the cursor on, the new buffer is drawn after the prompt,
    and the cursor moves one to the right. *)
Lemma insert_character_effect (ch : Z) (w : World) :
  cursor_in_bounds w ->
  let c := cursor (self w) in
  let i := input (self w) in
  let p := prompt (self w) in
  let i' := substring 0 (Z.to_nat c) i ++ string_of_rune ch
            ++ substring (Z.to_nat c) (Z.to_nat (len i - c)) i in
  insert_character ch w =
    (Returned tt,
     {| self := {| command := command (self w); prompt := p;
                   cursor := c + 1; input := i' |};
        screen := ((screen w ++ [DrawLine (len p) 3 i'])
                     ++ [SetCursor (len p + (c + 1)) 3])%list;
        quotes := quotes w |}).
Proof.
  intros [Hlo Hhi] c i p i'. subst c i p.
  pose proof (len_string_of_rune ch) as Hr.
  unfold insert_character, bind at 1 2, gets at 1 2. 
  destruct (cursor (self w) <? len (input (self w))) eqn:E.
  - apply Z.ltb_lt in E.
    unfold bind at 1 2 3.
    rewrite !slice_in_range by lia.
    replace (cursor (self w) - 0) with (cursor (self w)) by lia.
    change (Z.to_nat 0) with 0%nat. fold i'. unfold move_right. run.
    replace (cursor (self w) <? len i') with true; [reflexivity|].
    symmetry. apply Z.ltb_lt. subst i'.
    rewrite !len_append, len_prefix, len_suffix by lia. lia.
  - apply Z.ltb_ge in E. assert (cursor (self w) = len (input (self w))) as Ec by lia.
    assert (i' = input (self w) ++ string_of_rune ch) as ->.
    { subst i'. rewrite Ec, Z.sub_diag. unfold len. rewrite Nat2Z.id.
      rewrite substring_whole. simpl Z.to_nat. rewrite substring_none.
      now rewrite append_empty_r. }
    unfold move_right. run.
    replace (cursor (self w) <? len (input (self w) ++ string_of_rune ch)) with true;
      [reflexivity|].
    symmetry. apply Z.ltb_lt. rewrite len_append. lia.
Qed.

Lemma insert_character_bounds (ch : Z) : keeps_bounds (insert_character ch).
Proof.
  intros w Hw. eexists tt, _. split; [apply insert_character_effect, Hw|].
  destruct Hw as [Hlo Hhi]. pose proof (len_string_of_rune ch).
  unfold cursor_in_bounds; simpl.
  rewrite !len_append, len_prefix, len_suffix by lia. lia.
Qed.

Lemma delete_previous_character_bounds : keeps_bounds delete_previous_character.
Proof.
  intros w [Hlo Hhi].
  unfold delete_previous_character, bind at 1 2, gets at 1 2.
  destruct (0 <? cursor (self w)) eqn:E0.
  2: { eexists tt, _. split; [reflexivity | split; assumption]. }
  apply Z.ltb_lt in E0.
  destruct (cursor (self w) <? len (input (self w))) eqn:E.
  - apply Z.ltb_lt in E.
    unfold bind at 1 2 3. rewrite !slice_in_range by lia.
    unfold move_left. run.
    replace (0 <? cursor (self w)) with true by (symmetry; apply Z.ltb_lt; lia).
    eexists tt, _. split; [reflexivity|].
    unfold cursor_in_bounds; simpl.
    rewrite len_append, !len_slice by lia. lia.
  - apply Z.ltb_ge in E.
    unfold bind at 1 2. rewrite !slice_in_range by lia.
    unfold move_left. run.
    replace (0 <? cursor (self w)) with true by (symmetry; apply Z.ltb_lt; lia).
    eexists tt, _. split; [reflexivity|].
    unfold cursor_in_bounds; simpl.
    rewrite len_slice by lia. lia.
Qed.

(** *** Ending a session *)

Lemma tokenize_value (w : World) :
  tokenize w =
    (Returned (regexp.Split (strings.ToUpper (strings.TrimSpace (input (self w))))), w).
Proof. reflexivity. Qed.

Lemma done_self : keeps_self done true.
Proof. intros w. eexists. split; reflexivity. Qed.

Lemma execute_self : keeps_self execute tt.
Proof.
  intros w. unfold execute, bind at 1, gets at 1.
  destruct (command (self w) =? 43).
  { unfold bind at 1. rewrite tokenize_value.
    destruct (0 <? _); [|eexists; split; reflexivity].
    unfold bind at 1, gets at 1.
    destruct (AddTickers _ (quotes w)) as [added q'].
    destruct (0 <? added); eexists; split; reflexivity. }
  destruct (command (self w) =? 45); [|eexists; split; reflexivity].
  unfold bind at 1. rewrite tokenize_value.
  destruct (0 <? _); [|eexists; split; reflexivity].
  unfold bind at 1, gets at 1.
  destruct (RemoveTickers _ (quotes w)) as [removed q'].
  destruct (0 <? removed); [|eexists; split; reflexivity].
  apply keeps_self_bind with (a := tt); [apply keeps_self_set_quotes|].
  apply keeps_self_bind with (a := tt); [apply keeps_self_emit|].
  apply keeps_self_bind with (a := tt).
  - generalize (Z.to_nat (Z.of_nat (length (profile_Tickers (quotes w)))
      - (Z.of_nat (length (profile_Tickers (quotes w))) - removed))).
    generalize (Z.of_nat (length (profile_Tickers (quotes w)))).
    intros i n. revert i. induction n as [|n IH]; intros i; simpl.
    + apply keeps_self_ret.
    + apply keeps_self_bind with (a := tt); [apply keeps_self_emit | apply IH].
  - destruct (_ =? 0); [apply keeps_self_emit | apply keeps_self_ret].
Qed.

(** *** One event *)

(** From a state within the bounds [Handle] returns, with [true] for the
    two keys that end the session and [false] otherwise, and the state it
    leaves is within the bounds. *)
Lemma Handle_outcome (ev : termbox.Event) (w : World) :
  cursor_in_bounds w ->
  exists w', Handle ev w = (Returned (ends_session ev), w') /\ cursor_in_bounds w'.
Proof.
  intros Hw. unfold Handle, ends_session.
  destruct (termbox.Key ev =? termbox.KeyEsc) eqn:Esc.
  { eexists. split; [reflexivity | exact Hw]. }
  destruct (termbox.Key ev =? termbox.KeyEnter) eqn:Enter.
  { destruct (execute_self w) as (w1 & E1 & S1).
    unfold defer, bind. rewrite E1. simpl.
    eexists. split; [reflexivity|].
    unfold cursor_in_bounds in *; simpl. now rewrite S1. }
  simpl orb.
  match goal with
  | |- context [bind ?op (fun _ => ret false)] =>
      assert (keeps_bounds op) as Hop
  end.
  { repeat match goal with
           | |- keeps_bounds (if ?b then _ else _) => destruct b
           end;
      first [ apply delete_previous_character_bounds
            | apply move_left_bounds | apply move_right_bounds
            | apply jump_to_beginning_bounds | apply jump_to_end_bounds
            | apply insert_character_bounds | apply keeps_bounds_ret ]. }
  destruct (Hop w Hw) as ([] & w1 & E1 & Hw1).
  unfold defer, bind. rewrite E1. simpl.
  eexists. split; [reflexivity | exact Hw1].
Qed.

(** C6. The bounds [0 <= cursor <= len(input)] are kept by every key
    action, in any order: from a state within the bounds, every list of
    events (insertions, backspaces, moves to the left and to the right,
    jumps to the beginning and to the end, and the keys that end the
    session) is handled without a panic and leaves a state within the
    bounds. *)
Theorem Handle_each_keeps_cursor_in_bounds (evs : list termbox.Event) (w : World) :
  cursor_in_bounds w ->
  exists w', Handle_each evs w = (Returned tt, w') /\ cursor_in_bounds w'.
Proof.
  revert w. induction evs as [|ev evs IH]; intros w Hw; simpl.
  - exists w. split; [reflexivity | exact Hw].
  - destruct (Handle_outcome ev w Hw) as (w1 & E1 & Hw1).
    destruct (IH w1 Hw1) as (w2 & E2 & Hw2).
    exists w2. unfold bind. rewrite E1. split; [exact E2 | exact Hw2].
Qed.

(** C10. [Handle] returns [true] exactly when the key of the event is
    Escape or Enter; for every other event (backspace, cursor movement,
    insertion, or a key with no action) it returns [false]. *)
Theorem Handle_returns_true_iff_Esc_or_Enter (ev : termbox.Event) (w : World) :
  cursor_in_bounds w ->
  exists (b : bool) (w' : World),
    Handle ev w = (Returned b, w') /\
    (b = true <->
     termbox.Key ev = termbox.KeyEsc \/ termbox.Key ev = termbox.KeyEnter).
Proof.
  intros Hw. destruct (Handle_outcome ev w Hw) as (w' & E & _).
  exists (ends_session ev), w'. split; [exact E|].
  unfold ends_session. rewrite orb_true_iff, !Z.eqb_eq. reflexivity.
Qed.

(** C7. Inserting a character splices its encoding into the buffer at
    the cursor (the bytes before the cursor, the character, the bytes from
    the cursor on) and then advances the cursor by one. *)
Theorem insert_character_splices_at_cursor (ch : Z) (w : World) :
  cursor_in_bounds w ->
  exists w',
    insert_character ch w = (Returned tt, w') /\
    input (self w') =
      substring 0 (Z.to_nat (cursor (self w))) (input (self w))
      ++ string_of_rune ch
      ++ substring (Z.to_nat (cursor (self w)))
           (Z.to_nat (len (input (self w)) - cursor (self w))) (input (self w)) /\
    cursor (self w') = cursor (self w) + 1.
Proof.
  intros Hw. eexists. split; [apply insert_character_effect, Hw|].
  split; reflexivity.
Qed.

(** A session started on a new editor is within the bounds. *)
Lemma Prompt_on_new_editor_in_bounds (command : Z) (scr : list call) (q : Quotes) :
  exists w,
    Prompt command (Initialize scr q new_LineEditor) = (Returned tt, w) /\
    cursor_in_bounds w.
Proof.
  unfold Prompt. destruct (prompts command); eexists;
    (split; [reflexivity|]); unfold cursor_in_bounds, len; simpl; lia.
Qed.

(** *** The end of a session *)

(** C4, as the code has it.  Ending a session with Enter or Escape
    returns [true] and leaves the buffer and the cursor as they are;
    [Prompt] sets the prompt and the command only.  So a session started
    by [Prompt] on the same editor begins with the buffer and cursor of
    the session before, and a session begins with an empty buffer and
    cursor 0 when it is started on a newly created [LineEditor]. *)
Theorem session_end_keeps_buffer_and_cursor
    (commit : bool) (ch command : Z) (w : World) :
  let ev := {| termbox.Key := if commit then termbox.KeyEnter else termbox.KeyEsc;
               termbox.Ch := ch |} in
  (exists w1 w2,
     Handle ev w = (Returned true, w1) /\
     input (self w1) = input (self w) /\ cursor (self w1) = cursor (self w) /\
     Prompt command w1 = (Returned tt, w2) /\
     input (self w2) = input (self w) /\ cursor (self w2) = cursor (self w)) /\
  (forall (scr : list call) (q : Quotes),
     exists w2,
       Prompt command (Initialize scr q new_LineEditor) = (Returned tt, w2) /\
       input (self w2) = "" /\ cursor (self w2) = 0).
Proof.
  intros ev.
  assert (forall w0, exists w2, Prompt command w0 = (Returned tt, w2) /\
            input (self w2) = input (self w0) /\ cursor (self w2) = cursor (self w0))
    as HPrompt.
  { intros w0. unfold Prompt. destruct (prompts command);
      eexists; (split; [reflexivity|]); split; reflexivity. }
  split.
  - assert (exists w1, Handle ev w = (Returned true, w1) /\ self w1 = self w)
      as (w1 & E1 & S1).
    { subst ev. unfold Handle. destruct commit; simpl.
      - destruct (execute_self w) as (w1 & E1 & S1).
        unfold defer, bind. rewrite E1. simpl. eexists. split; [reflexivity|exact S1].
      - eexists. split; reflexivity. }
    destruct (HPrompt w1) as (w2 & E2 & I2 & C2).
    exists w1, w2. rewrite I2, C2, S1. repeat split; assumption.
  - intros scr q. destruct (HPrompt (Initialize scr q new_LineEditor)) as (w2 & E2 & I2 & C2).
    exists w2. rewrite I2, C2. auto.
Qed.

(** *** The split of the buffer, in the editor *)

(** C3, at the inputs where the code leaves the claim.  [tokenize] keeps
    empty tokens: an empty buffer gives one empty token, a buffer that is
    a comma gives two, and a comma at the end of the trimmed buffer gives
    an empty last token.  The list of tokens is never empty, so the test
    [len(tickers) > 0] of [execute] never fails. *)
Theorem tokenize_keeps_empty_tokens
    (command cursor : Z) (prompt : string) (scr : list call) (q : Quotes) :
  let w (buffer : string) :=
    {| self := {| command := command; prompt := prompt;
                  cursor := cursor; input := buffer |};
       screen := scr; quotes := q |} in
  tokenize (w "") = (Returned [""], w "") /\
  tokenize (w ",") = (Returned [""; ""], w ",") /\
  tokenize (w " aapl, ") = (Returned ["AAPL"; ""], w " aapl, ") /\
  (forall buffer, fst (tokenize (w buffer)) <> Returned []).
Proof.
  intros w.
  split; [reflexivity|]. split; [reflexivity|]. split; [reflexivity|].
  intros buffer. rewrite tokenize_value. simpl.
  intros E. inversion E as [E']. now apply Split_not_empty in E'.
Qed.

(** The example of the spec, where no separator starts or ends the
    trimmed buffer. *)
Example tokenize_spec_example (w : World) :
  input (self w) = " aapl,  msft tsla " ->
  tokenize w = (Returned ["AAPL"; "MSFT"; "TSLA"], w).
Proof. intros E. rewrite tokenize_value, E. reflexivity. Qed.

(** *** The rows cleared after a removal *)

Lemma clear_rows_effect (n : nat) (i : Z) (w : World) :
  clear_rows n i w =
    (Returned tt,
     {| self := self w;
        screen := (screen w ++
                   (ClearLine 0 <$> reverse (seqZ (i - Z.of_nat n + 5) (Z.of_nat n))))%list;
        quotes := quotes w |}).
Proof.
  revert i w. induction n as [|n IH]; intros i w.
  - cbn [clear_rows]. unfold ret. rewrite seqZ_nil by reflexivity.
    cbn [reverse fmap list_fmap]. rewrite app_nil_r. now destruct w.
  - cbn [clear_rows]. unfold bind at 1, emit at 1, modify at 1.
    rewrite IH. cbn [self screen quotes]. do 2 f_equal.
    rewrite <- app_assoc. f_equal.
    rewrite seqZ_S, reverse_snoc, fmap_cons.
    replace (i - Z.of_nat (S n) + 5 + Z.of_nat n) with (i + 4) by lia.
    replace (i - 1 - Z.of_nat n + 5) with (i - Z.of_nat (S n) + 5) by lia.
    reflexivity.
Qed.

(** C5. A commit of the remove command in which [RemoveTickers] reports
    [removed > 0] tickers gone from a set of [before] redraws the table
    and then clears [removed] rows: the screen rows [before + 4] down to
    [(before - removed) + 5], one for each position
    [before - removed + 1 .. before] of the table.  It clears the header
    row 4 as well exactly when the ticker set that results is empty,
    [RemoveTickers] reporting the count it did remove. *)
Theorem execute_remove_clears_trailing_rows
    (w : World) (removed : Z) (q' : Quotes) :
  let before := Z.of_nat (length (profile_Tickers (quotes w))) in
  let tickers := regexp.Split (strings.ToUpper (strings.TrimSpace (input (self w)))) in
  command (self w) = 45 ->
  RemoveTickers tickers (quotes w) = (removed, q') ->
  0 < removed ->
  Z.of_nat (length (profile_Tickers q')) = before - removed ->
  exists w',
    execute w = (Returned tt, w') /\
    quotes w' = q' /\
    screen w' =
      (screen w ++ [Draw]
       ++ (ClearLine 0 <$> reverse (seqZ (before - removed + 5) removed))
       ++ (if decide (profile_Tickers q' = []) then [ClearLine 0 4] else []))%list /\
    length (reverse (seqZ (before - removed + 5) removed)) = Z.to_nat removed.
Proof.
  intros before tickers Hcmd Hrm Hpos Hcount.
  unfold execute, bind at 1, gets at 1. rewrite Hcmd. cbn [Z.eqb Pos.eqb].
  unfold bind at 1. rewrite tokenize_value. fold tickers.
  replace (0 <? Z.of_nat (length tickers)) with true.
  2: { symmetry. apply Z.ltb_lt. pose proof (Split_not_empty
         (strings.ToUpper (strings.TrimSpace (input (self w))))) as Hne.
       fold tickers in Hne. destruct tickers; [congruence | simpl; lia]. }
  unfold bind at 1, gets at 1. rewrite Hrm. fold before.
  replace (0 <? removed) with true by (symmetry; apply Z.ltb_lt; lia).
  unfold bind at 1, set_quotes at 1, modify at 1.
  unfold bind at 1, emit at 1, modify at 1. cbn [self screen quotes].
  unfold bind at 1. rewrite clear_rows_effect. cbn [self screen quotes].
  replace (before - (before - removed)) with removed by lia.
  rewrite Z2Nat.id by lia.
  assert ((before - removed =? 0) = bool_decide (profile_Tickers q' = [])) as ->.
  { destruct (profile_Tickers q') eqn:Eq; simpl in Hcount.
    - rewrite bool_decide_eq_true_2 by reflexivity. apply Z.eqb_eq. lia.
    - rewrite bool_decide_eq_false_2 by discriminate. apply Z.eqb_neq. lia. }
  rewrite length_reverse, length_seqZ.
  destruct (decide (profile_Tickers q' = [])) as [Hq|Hq].
  - rewrite bool_decide_eq_true_2 by exact Hq.
    eexists. split; [reflexivity|]. cbn [self screen quotes].
    split; [reflexivity|]. split; [|reflexivity].
    now rewrite <- !app_assoc.
  - rewrite bool_decide_eq_false_2 by exact Hq.
    eexists. split; [reflexivity|]. cbn [self screen quotes].
    split; [reflexivity|]. split; [|reflexivity].
    now rewrite app_nil_r, <- !app_assoc.
Qed.

End EditorFacts.

(** ** The editor on concrete sessions *)

Section EditorExamples.
#[local] Existing Instance ascii_only.
#[local] Existing Instance TickerSet.

(** Buffer "AAPL", cursor 0: moves to the left, an insertion and a
    backspace at the beginning, then a jump to the end and moves to the
    right. *)
Lemma AAPL_moves_stay_in_bounds :
  exists w',
    Handle_each
      [key termbox.KeyArrowLeft; key termbox.KeyArrowLeft; key termbox.KeyCtrlB;
       char 88; key termbox.KeyBackspace; key termbox.KeyBackspace;
       key termbox.KeyCtrlA; key termbox.KeyCtrlE;
       key termbox.KeyArrowRight; key termbox.KeyArrowRight; key termbox.KeyCtrlF]
      (session 43 "AAPL" 0 []) = (Returned tt, w') /\
    cursor_in_bounds w'.
Proof.
  apply Handle_each_keeps_cursor_in_bounds.
  unfold cursor_in_bounds, len; simpl. lia.
Defined.

Example AAPL_left_of_0 :
  cursor (self (snd (Handle_each
    [key termbox.KeyArrowLeft; key termbox.KeyArrowLeft; key termbox.KeyArrowLeft]
    (session 43 "AAPL" 0 [])))) = 0.
Proof. reflexivity. Qed.

Example AAPL_right_of_4 :
  cursor (self (snd (Handle_each
    [key termbox.KeyArrowRight; key termbox.KeyArrowRight; key termbox.KeyArrowRight]
    (session 43 "AAPL" 4 [])))) = 4.
Proof. reflexivity. Qed.

(** Buffer "AAPL", cursor 2, insert 'X': buffer "AAXPL", cursor 3. *)
Lemma AAPL_insert_X_at_2 :
  exists w',
    insert_character 88 (session 43 "AAPL" 2 []) = (Returned tt, w') /\
    input (self w') = "AAXPL" /\ cursor (self w') = 3.
Proof.
  destruct (insert_character_splices_at_cursor 88 (session 43 "AAPL" 2 []))
    as (w' & E & HI & HC).
  { unfold cursor_in_bounds, len; simpl. lia. }
  exists w'. split; [exact E|]. split.
  - rewrite HI. reflexivity.
  - rewrite HC. reflexivity.
Defined.

(** Escape ends the session; a character does not. *)
Lemma Handle_Esc_returns_true :
  exists (b : bool) w',
    Handle (key termbox.KeyEsc) (session 43 "AAPL" 4 []) = (Returned b, w') /\
    (b = true <->
     termbox.Key (key termbox.KeyEsc) = termbox.KeyEsc \/
     termbox.Key (key termbox.KeyEsc) = termbox.KeyEnter).
Proof.
  apply Handle_returns_true_iff_Esc_or_Enter.
  unfold cursor_in_bounds, len; simpl. lia.
Defined.

Example Handle_character_returns_false :
  fst (Handle (char 88) (session 43 "AAPL" 4 [])) = Returned false.
Proof. reflexivity. Qed.

(** The set AAPL, MSFT, TSLA and the buffer "msft": one ticker goes, the
    table is drawn again and the one row 7 is cleared. *)
Lemma remove_MSFT_clears_row_7 :
  exists w',
    execute (session 45 "msft" 4 ["AAPL"; "MSFT"; "TSLA"]) = (Returned tt, w') /\
    quotes w' = ["AAPL"; "TSLA"] /\
    screen w' = [Draw; ClearLine 0 7].
Proof.
  destruct (execute_remove_clears_trailing_rows
              (session 45 "msft" 4 ["AAPL"; "MSFT"; "TSLA"]) 1 ["AAPL"; "TSLA"])
    as (w' & E & HQ & HS & _); try reflexivity.
  exists w'. split; [exact E|]. split; [exact HQ|].
  rewrite HS. reflexivity.
Defined.

(** Removing the last ticker clears its row and the header row. *)
Example remove_last_ticker_clears_header :
  screen (snd (execute (session 45 "aapl" 4 ["AAPL"]))) = [Draw; ClearLine 0 5; ClearLine 0 4].
Proof. reflexivity. Qed.

(** C4, as the specification states it, fails: after Escape on a session with
    buffer "AAPL" and cursor 4, a session started by [Prompt] on the same
    editor has that buffer and that cursor, not an empty buffer and 0. *)
Lemma Prompt_after_Esc_finds_old_buffer :
  exists w1 w2,
    Handle (key termbox.KeyEsc) (session 43 "AAPL" 4 []) = (Returned true, w1) /\
    Prompt 45 w1 = (Returned tt, w2) /\
    input (self w2) = "AAPL" /\ cursor (self w2) = 4 /\
    input (self w2) <> "" /\ cursor (self w2) <> 0.
Proof.
  pose (w1 := snd (Handle (key termbox.KeyEsc) (session 43 "AAPL" 4 []))).
  exists w1, (snd (Prompt 45 w1)). subst w1.
  repeat split; try (vm_compute; reflexivity); vm_compute; discriminate.
Qed.

End EditorExamples.

(** ** The market: decoding a response *)

Section MarketFacts.
Variable float2Str : float -> string.

Lemma assign_at {S} (results : list (gomap iface)) (i : Z) (s : S) :
  0 <= i ->
  assign float2Str results i false s =
    match results !! Z.to_nat i with
    | None => (Panicked IndexOutOfRange, s)
    | Some r =>
        match quote_record float2Str r with
        | Some v => (Returned v, s)
        | None => (Panicked InterfaceConversion, s)
        end
    end.
Proof.
  intros Hi. unfold assign, index, bind.
  replace (0 <=? i) with true by (symmetry; now apply Z.leb_le).
  destruct (results !! Z.to_nat i) as [r|]; [|reflexivity].
  unfold quote_record, ret. cbv beta iota.
  destruct (map_index r "regularMarketChange"); try reflexivity;
    destruct (map_index r "regularMarketPrice"); try reflexivity;
    destruct (map_index r "regularMarketChangePercent"); reflexivity.
Qed.

(** One assignment of [extract], [market.X = assign(results, i, false)],
    followed by the rest of the function. *)
Lemma extract_step (results : list (gomap iface)) (i : Z)
    (set : gomap string -> Market -> Market) (rest : Go Market unit) (m : Market) :
  0 <= i ->
  bind (assign float2Str results i false)
       (fun v => bind (modify (set (Some v))) (fun _ => rest)) m =
    match results !! Z.to_nat i with
    | None => (Panicked IndexOutOfRange, m)
    | Some r =>
        match quote_record float2Str r with
        | Some v => rest (set (Some v) m)
        | None => (Panicked InterfaceConversion, m)
        end
    end.
Proof.
  intros Hi. unfold bind at 1. rewrite assign_at by exact Hi.
  destruct (results !! Z.to_nat i) as [r|]; [|reflexivity].
  destruct (quote_record float2Str r); reflexivity.
Qed.

Lemma extract_last_step (results : list (gomap iface)) (i : Z)
    (set : gomap string -> Market -> Market) (m : Market) :
  0 <= i ->
  bind (assign float2Str results i false) (fun v => modify (set (Some v))) m =
    match results !! Z.to_nat i with
    | None => (Panicked IndexOutOfRange, m)
    | Some r =>
        match quote_record float2Str r with
        | Some v => (Returned tt, set (Some v) m)
        | None => (Panicked InterfaceConversion, m)
        end
    end.
Proof.
  intros Hi. unfold bind at 1. rewrite assign_at by exact Hi.
  destruct (results !! Z.to_nat i) as [r|]; [|reflexivity].
  destruct (quote_record float2Str r); reflexivity.
Qed.

(** The store of the label, followed by the rest of the function. *)
Lemma extract_name_step (rest : Go Market unit) (m : Market) :
  bind store_Yield_name (fun _ => rest) m =
    match Yield m with
    | Some g => rest (set_Yield (Some (<["name" := "10-year Yield"]> g)) m)
    | None => (Panicked AssignmentToNilMap, m)
    end.
Proof.
  unfold bind at 1, store_Yield_name, bind at 1, gets at 1.
  destruct (Yield m); reflexivity.
Qed.

Ltac to_nat_literals :=
  repeat match goal with
         | |- context [Z.to_nat ?i] =>
             let n := eval compute in (Z.to_nat i) in change (Z.to_nat i) with n
         end.

(** *** A full response *)

(** A response of fifteen entries that each hold the three numbers is
    decoded without a panic, and the slot at each position then holds the
    record of the entry at that position. *)
Lemma extract_full (m : Market) (body : option json) :
  length (result_array body) = 15%nat ->
  Forall (fun r => is_Some (quote_record float2Str r)) (result_array body) ->
  is_Some (Yield m) ->
  exists m',
    extract float2Str body m = (Returned tt, m') /\
    forall (i : nat) (r : gomap iface),
      result_array body !! i = Some r ->
      slots m' !! i = Some (quote_record float2Str r).
Proof.
  unfold result_array, extract. intros Hlen Hall [g HY].
  destruct (encoding_json.Unmarshal body) as [err|d]; [discriminate Hlen|].
  cbv zeta. generalize dependent (quoteResponse_result d). intros results Hlen Hall.
  do 15 (destruct results as [|? results]; [discriminate Hlen|]).
  destruct results; [clear Hlen | discriminate Hlen].
  repeat match goal with
         | H : Forall _ (_ :: _) |- _ => inversion_clear H
         | H : is_Some (quote_record _ _) |- _ => destruct H
         end.
  eexists. split.
  { do 12 (rewrite extract_step by lia; to_nat_literals; cbn [lookup list_lookup];
           match goal with
           | H : quote_record _ ?r = Some _ |- context [quote_record _ ?r] => rewrite H
           end).
    rewrite extract_name_step. simpl (Yield _). rewrite HY.
    do 2 (rewrite extract_step by lia; to_nat_literals; cbn [lookup list_lookup];
          match goal with
          | H : quote_record _ ?r = Some _ |- context [quote_record _ ?r] => rewrite H
          end).
    rewrite extract_last_step by lia. to_nat_literals. cbn [lookup list_lookup].
    match goal with
    | H : quote_record _ ?r = Some _ |- context [quote_record _ ?r] => rewrite H
    end.
    reflexivity. }
  intros i r Hi.
  do 15 (destruct i as [|i];
         [simpl in Hi; inversion Hi; subst; simpl; f_equal; symmetry; assumption|]).
  simpl in Hi. discriminate Hi.
Qed.

(** The record of an entry does not depend on the symbol the entry
    carries. *)
Lemma quote_record_ignores_symbol (g : gmap string iface) (symbol : iface) :
  quote_record float2Str (Some (<["symbol" := symbol]> g))
  = quote_record float2Str (Some g).
Proof.
  unfold quote_record, map_index.
  rewrite !lookup_insert_ne by discriminate. reflexivity.
Qed.

(** C9. For every response whose result array has fifteen entries that
    decode, the entry at position [i] of the array goes to the [i]-th
    slot in the order Dow, Nasdaq, S&P500, Bitcoin, Tokyo, Hong Kong,
    London, Frankfurt, Yen, Ruble, Pound, Euro, 10-Year-Yield, Silver,
    Gold.  The record of a slot is made of the three numbers of the entry
    at its position and of nothing else: no symbol is looked up. *)
Theorem extract_maps_position_to_slot (m : Market) (body : option json) :
  length (result_array body) = 15%nat ->
  Forall (fun r => is_Some (quote_record float2Str r)) (result_array body) ->
  is_Some (Yield m) ->
  exists m',
    extract float2Str body m = (Returned tt, m') /\
    slots m' = (fun r => quote_record float2Str r) <$> result_array body /\
    forall (i : nat) (r : gomap iface),
      result_array body !! i = Some r ->
      slots m' !! i = Some (quote_record float2Str r).
Proof.
  intros Hlen Hall HY.
  destruct (extract_full m body Hlen Hall HY) as (m' & E & Hslots).
  exists m'. split; [exact E|]. split; [|exact Hslots].
  apply list_eq. intros i. rewrite list_lookup_fmap.
  destruct (result_array body !! i) as [r|] eqn:Ei.
  - now apply Hslots.
  - apply lookup_ge_None. apply lookup_ge_None in Ei. simpl. lia.
Qed.

(** C8, where the code leaves the claim.  After a decode that succeeds
    the record of the 10-Year-Yield slot is the record of the entry at
    position 12, with its three fields and no [name]: the label was
    stored into the map that the assignment of the next line replaces. *)
Theorem extract_leaves_Yield_without_name (m : Market) (body : option json) :
  length (result_array body) = 15%nat ->
  Forall (fun r => is_Some (quote_record float2Str r)) (result_array body) ->
  is_Some (Yield m) ->
  exists m',
    extract float2Str body m = (Returned tt, m') /\
    field (Yield m') "name" = None /\
    is_Some (field (Yield m') "latest").
Proof.
  intros Hlen Hall HY.
  destruct (extract_full m body Hlen Hall HY) as (m' & E & Hslots).
  exists m'. split; [exact E|].
  destruct (result_array body !! 12%nat) as [r|] eqn:E12.
  2: { apply lookup_ge_None in E12. lia. }
  specialize (Hslots 12%nat r E12). simpl in Hslots. inversion Hslots as [HYield].
  assert (is_Some (quote_record float2Str r)) as [v Hv].
  { rewrite Forall_forall in Hall. apply Hall. eapply list_elem_of_lookup_2, E12. }
  rewrite HYield, Hv. unfold quote_record in Hv.
  destruct (map_index r "regularMarketChange"); try discriminate.
  destruct (map_index r "regularMarketPrice"); try discriminate.
  destruct (map_index r "regularMarketChangePercent"); try discriminate.
  inversion Hv. simpl.
  split.
  - rewrite !lookup_insert_ne by discriminate. apply lookup_empty.
  - rewrite lookup_insert_ne by discriminate. rewrite lookup_insert_eq. eauto.
Qed.

(** *** A response that is too short *)

Ltac lookups_to_lengths :=
  repeat match goal with
         | H : _ !! _ = Some _ |- _ => apply lookup_lt_Some in H
         | H : _ !! _ = None |- _ => apply lookup_ge_None in H
         end.

(** The decode has stopped with a panic: the slots at the positions the
    array does not reach are untouched. *)
Ltac stopped :=
  lookups_to_lengths;
  eexists _, _; split; [reflexivity|]; split;
  [ let i := fresh "i" in
    intros i ? ?;
    do 15 (destruct i as [|i]; [first [reflexivity | exfalso; lia]|]);
    exfalso; lia
  | intros ? ? ?; simpl;
    repeat match goal with H : Yield _ = _ |- _ => rewrite H end;
    first [ reflexivity
          | exfalso; lia
          | simpl; rewrite lookup_insert_ne by congruence; reflexivity ] ].

(** One assignment of [extract]: either it panics, and [closing] ends
    the case, or the decode goes on. *)
Ltac assignment step_lemma closing :=
  rewrite step_lemma by lia; to_nat_literals;
  lazymatch goal with
  | |- context [match ?l !! ?k with _ => _ end] =>
      let r := fresh "r" in
      destruct (l !! k) as [r|] eqn:?;
      [ destruct (quote_record float2Str r); [ | closing ] | closing ]
  end.

(** With fewer than fifteen entries in the result array the decode ends
    in a panic.  The slots at the positions from the length of the array
    on are then as they were, the 10-Year-Yield slot up to its [name]. *)
Lemma extract_short (m : Market) (body : option json) :
  (length (result_array body) < 15)%nat ->
  exists p m',
    extract float2Str body m = (Panicked p, m') /\
    (forall i : nat,
       (length (result_array body) <= i < 15)%nat -> i <> 12%nat ->
       slots m' !! i = slots m !! i) /\
    ((length (result_array body) <= 12)%nat ->
     forall k : string, k <> "name" -> field (Yield m') k = field (Yield m) k).
Proof.
  unfold result_array, extract. intros Hlen.
  destruct (encoding_json.Unmarshal body) as [err|d]; [stopped|].
  cbv zeta. generalize dependent (quoteResponse_result d). intros results Hlen.
  do 12 assignment extract_step stopped.
  rewrite extract_name_step. simpl (Yield _).
  destruct (Yield m) eqn:HY; [|stopped].
  do 2 assignment extract_step stopped.
  assignment extract_last_step stopped.
  exfalso. lookups_to_lengths. lia.
Qed.

(** *** The map of the 10-Year-Yield slot *)

(** [NewMarket] makes the map of the slot, and no fetch leaves the slot
    with the nil map: the store of the label never panics in a market
    that [NewMarket] made. *)
Lemma extract_keeps_Yield_made (m : Market) (body : option json) :
  is_Some (Yield m) -> is_Some (Yield (snd (extract float2Str body m))).
Proof.
  intros HY. unfold extract.
  destruct (encoding_json.Unmarshal body) as [err|d]; [exact HY|].
  cbv zeta.
  do 12 assignment extract_step ltac:(exact HY).
  rewrite extract_name_step. simpl (Yield _).
  destruct HY as [made HY]. rewrite HY.
  do 2 assignment extract_step ltac:(simpl; eauto).
  assignment extract_last_step ltac:(simpl; eauto).
  simpl. eauto.
Qed.

Lemma Fetch_keeps_Yield_made (net : transport) (m : Market) :
  is_Some (Yield m) -> is_Some (Yield (Fetch float2Str net m)).
Proof.
  intros HY. unfold Fetch, Fetch_body, isMarketOpen.
  destruct net; try exact HY.
  pose proof (extract_keeps_Yield_made m body HY) as H.
  destruct (extract float2Str body m) as [[[]|p] m']; exact H.
Qed.

(** C1, as the code has it.  A response whose result array has fewer
    than fifteen entries makes the fetch fail as a whole: the decode
    panics and [Fetch] recovers.  The failure is not atomic.  The records
    left as they were before the call are those of the positions the array
    does not reach: every slot at a position from the length of the array
    on, the 10-Year-Yield slot in its fields other than [name]. *)
Theorem Fetch_short_result_keeps_unreached_slots (m : Market) (body : option json) :
  (length (result_array body) < 15)%nat ->
  panics (Fetch_body float2Str (Body body)) m /\
  (forall i : nat,
     (length (result_array body) <= i < 15)%nat -> i <> 12%nat ->
     slots (Fetch float2Str (Body body) m) !! i = slots m !! i) /\
  ((length (result_array body) <= 12)%nat ->
   forall k : string, k <> "name" ->
     field (Yield (Fetch float2Str (Body body) m)) k = field (Yield m) k).
Proof.
  intros Hlen. destruct (extract_short m body Hlen) as (p & m' & E & Hslots & HYield).
  unfold panics, Fetch, Fetch_body, isMarketOpen. rewrite E.
  split; [eauto|]. split; [exact Hslots | exact HYield].
Qed.

(** *** The error state *)

Lemma network_error_panics (net : transport) (m : Market) :
  (forall body, net <> Body body) -> panics (Fetch_body float2Str net) m.
Proof.
  intros Hnet. destruct net; try (eexists _, _; reflexivity).
  now destruct (Hnet body).
Qed.

Lemma decode_error_panics (body : option json) (err : string) (m : Market) :
  encoding_json.Unmarshal body = inl err ->
  panics (Fetch_body float2Str (Body body)) m.
Proof.
  intros E. unfold Fetch_body, isMarketOpen, extract. rewrite E.
  eexists _, _. reflexivity.
Qed.

(** C2, as the code has it.  After a fetch that fails (an error of the
    network, a time-out, an error of the decode) the error text of the
    market is the empty string, and [Ok] reports [true] with the empty
    text: the failure is not shown. *)
Theorem Fetch_failure_clears_errors (net : transport) (m : Market) :
  panics (Fetch_body float2Str net) m ->
  errors (Fetch float2Str net m) = "" /\
  Ok (Fetch float2Str net m) = (true, "").
Proof.
  intros (p & m' & E). unfold Ok, Fetch. rewrite E. split; reflexivity.
Qed.

End MarketFacts.

(** ** The market on concrete responses *)

(** C1, as the specification states it, fails: with fourteen entries the fetch
    fails, and the Dow record is not the record of before the call. *)
Lemma fourteen_quotes_overwrite_Dow :
  length (result_array (response fourteen_quotes)) = 14%nat /\
  panics (Fetch_body float2Str_2dp (Body (response fourteen_quotes))) market0 /\
  field (Dow market0) "latest" = None /\
  field (Dow (Fetch float2Str_2dp (Body (response fourteen_quotes)) market0)) "latest"
    = Some "34567.88".
Proof.
  split; [vm_compute; reflexivity|].
  split; [eexists _, _; vm_compute; reflexivity|].
  split; vm_compute; reflexivity.
Qed.

Lemma fourteen_quotes_keep_Gold :
  panics (Fetch_body float2Str_2dp (Body (response fourteen_quotes))) market0 /\
  (forall i : nat,
     (length (result_array (response fourteen_quotes)) <= i < 15)%nat -> i <> 12%nat ->
     slots (Fetch float2Str_2dp (Body (response fourteen_quotes)) market0) !! i
     = slots market0 !! i) /\
  ((length (result_array (response fourteen_quotes)) <= 12)%nat ->
   forall k : string, k <> "name" ->
     field (Yield (Fetch float2Str_2dp (Body (response fourteen_quotes)) market0)) k
     = field (Yield market0) k).
Proof.
  apply Fetch_short_result_keeps_unreached_slots.
  vm_compute. lia.
Defined.

(** An array of more than fifteen entries is not refused. *)
Example sixteen_quotes_are_decoded :
  fst (Fetch_body float2Str_2dp
         (Body (response (fifteen_quotes ++ [quote "CL=F" 75.5 0.5 0.67])%list)) market0)
  = Returned tt.
Proof. vm_compute. reflexivity. Qed.

(** C2, as the specification states it, fails: after a time-out [Ok] reports the
    healthy state and no message. *)
Lemma timeout_is_reported_healthy :
  panics (Fetch_body float2Str_2dp (DoError "context deadline exceeded")) market0 /\
  Ok (Fetch float2Str_2dp (DoError "context deadline exceeded") market0) = (true, "") /\
  fst (Ok (Fetch float2Str_2dp (DoError "context deadline exceeded") market0)) <> false.
Proof.
  split; [eexists _, _; reflexivity|].
  split; [vm_compute; reflexivity | vm_compute; discriminate].
Qed.

Lemma decode_error_clears_errors :
  errors (Fetch float2Str_2dp (Body (Some (JArray []))) market0) = "" /\
  Ok (Fetch float2Str_2dp (Body (Some (JArray []))) market0) = (true, "").
Proof.
  apply Fetch_failure_clears_errors.
  apply decode_error_panics with (err := "json: cannot unmarshal"). reflexivity.
Defined.

Lemma fifteen_quotes_decode :
  length (result_array (response fifteen_quotes)) = 15%nat /\
  Forall (fun r => is_Some (quote_record float2Str_2dp r))
    (result_array (response fifteen_quotes)) /\
  is_Some (Yield market0).
Proof.
  split; [vm_compute; reflexivity|]. split; [|eexists; reflexivity].
  apply (bool_decide_unpack _). vm_compute. exact I.
Defined.

(** A full response: each slot holds the record of its position. *)
Lemma fifteen_quotes_fill_the_slots :
  exists m',
    extract float2Str_2dp (response fifteen_quotes) market0 = (Returned tt, m') /\
    slots m' = (fun r => quote_record float2Str_2dp r)
                 <$> result_array (response fifteen_quotes) /\
    forall (i : nat) (r : gomap iface),
      result_array (response fifteen_quotes) !! i = Some r ->
      slots m' !! i = Some (quote_record float2Str_2dp r).
Proof.
  apply extract_maps_position_to_slot; apply fifteen_quotes_decode.
Defined.

Lemma fifteen_quotes_leave_no_name :
  exists m',
    extract float2Str_2dp (response fifteen_quotes) market0 = (Returned tt, m') /\
    field (Yield m') "name" = None /\
    is_Some (field (Yield m') "latest").
Proof.
  apply extract_leaves_Yield_without_name; apply fifteen_quotes_decode.
Defined.

Example fifteen_quotes_Yield_record :
  option_map map_to_list
    (Yield (Fetch float2Str_2dp (Body (response fifteen_quotes)) market0))
  = Some [("change", "0.03"); ("latest", "4.25"); ("percent", "0.71%")].
Proof. vm_compute. reflexivity. Qed.

Example fifteen_quotes_Gold_record :
  option_map map_to_list
    (Gold (Fetch float2Str_2dp (Body (response fifteen_quotes)) market0))
  = Some [("change", "8.25"); ("latest", "2050.75"); ("percent", "0.40%")].
Proof. vm_compute. reflexivity. Qed.

(* ================================================================= *)
(** * Further properties of the editor *)

(** ** More on strings *)

Lemma substring_prefix_of_append (a r : string) :
  substring 0 (String.length a) (a ++ r) = a.
Proof.
  induction a as [|c a IH]; simpl.
  - apply substring_none.
  - unfold String.app in *. simpl. now rewrite IH.
Qed.

Lemma substring_past_prefix (a r : string) (n m : nat) :
  substring (String.length a + n) m (a ++ r) = substring n m r.
Proof.
  induction a as [|c a IH]; [reflexivity|].
  unfold String.app in *. simpl. exact IH.
Qed.

Lemma append_assoc (a b c : string) : (a ++ b) ++ c = a ++ (b ++ c).
Proof.
  induction a as [|x a IH]; [reflexivity|].
  unfold String.app in *. simpl. now rewrite IH.
Qed.

Lemma string_of_rune_ascii (r : Z) :
  0 <= r < 128 -> string_of_rune r = String (byte_of r) "".
Proof.
  intros Hr. unfold string_of_rune.
  replace (r <? 0) with false by (symmetry; apply Z.ltb_ge; lia).
  replace (1114111 <? r) with false by (symmetry; apply Z.ltb_ge; lia).
  replace (55296 <=? r) with false by (symmetry; apply Z.leb_gt; lia).
  replace (r <? 128) with true by (symmetry; apply Z.ltb_lt; lia).
  reflexivity.
Qed.

Lemma len_string_of_rune_wide (r : Z) :
  r < 0 \/ 128 <= r -> 2 <= len (string_of_rune r) <= 4.
Proof.
  intros Hr. unfold string_of_rune.
  destruct (r <? 0) eqn:E0; [unfold len; simpl; lia|]. apply Z.ltb_ge in E0.
  destruct (1114111 <? r); [unfold len; simpl; lia|].
  destruct ((55296 <=? r) && (r <=? 57343)); [unfold len; simpl; lia|].
  cbn [orb].
  destruct (r <? 128) eqn:E; [apply Z.ltb_lt in E; lia|].
  repeat match goal with |- context [if ?b then _ else _] => destruct b end;
    unfold len; simpl; lia.
Qed.

(** ** Backspace, and how the key actions compose *)

Section EditorEffects.
Context `{Unicode} `{QuotesAPI}.

Ltac run := unfold bind, gets, modify, ret, emit, set_cursor, set_input,
  set_prompt, set_command, set_quotes, set_self; simpl.

Lemma move_left_effect (w : World) :
  move_left w =
    (Returned tt,
     if 0 <? cursor (self w) then
       {| self := {| command := command (self w); prompt := prompt (self w);
                     cursor := cursor (self w) - 1; input := input (self w) |};
          screen := (screen w
                     ++ [SetCursor (len (prompt (self w)) + (cursor (self w) - 1)) 3])%list;
          quotes := quotes w |}
     else w).
Proof. unfold move_left. run. destruct (0 <? cursor (self w)); reflexivity. Qed.

Lemma move_right_effect (w : World) :
  move_right w =
    (Returned tt,
     if cursor (self w) <? len (input (self w)) then
       {| self := {| command := command (self w); prompt := prompt (self w);
                     cursor := cursor (self w) + 1; input := input (self w) |};
          screen := (screen w
                     ++ [SetCursor (len (prompt (self w)) + (cursor (self w) + 1)) 3])%list;
          quotes := quotes w |}
     else w).
Proof.
  unfold move_right. run.
  destruct (cursor (self w) <? len (input (self w))); reflexivity.
Qed.

(** What [delete_previous_character] does to a state within the bounds
    whose cursor is not at the beginning. *)
Lemma delete_previous_character_effect (w : World) :
  cursor_in_bounds w -> 0 < cursor (self w) ->
  let c := cursor (self w) in
  let i := input (self w) in
  let p := prompt (self w) in
  let i' := substring 0 (Z.to_nat (c - 1)) i
            ++ substring (Z.to_nat c) (Z.to_nat (len i - c)) i in
  delete_previous_character w =
    (Returned tt,
     {| self := {| command := command (self w); prompt := p;
                   cursor := c - 1; input := i' |};
        screen := ((screen w ++ [DrawLine (len p) 3 (i' ++ " ")])
                     ++ [SetCursor (len p + (c - 1)) 3])%list;
        quotes := quotes w |}).
Proof.
  intros [Hlo Hhi] Hpos c i p i'. subst c i p.
  unfold delete_previous_character, bind at 1 2, gets at 1 2.
  replace (0 <? cursor (self w)) with true by (symmetry; apply Z.ltb_lt; lia).
  destruct (cursor (self w) <? len (input (self w))) eqn:E.
  - apply Z.ltb_lt in E.
    unfold bind at 1 2 3. rewrite !slice_in_range by lia.
    change (Z.to_nat 0) with 0%nat.
    replace (cursor (self w) - 1 - 0) with (cursor (self w) - 1) by lia.
    fold i'. run. rewrite move_left_effect.
    cbn [self screen quotes command prompt cursor input].
    replace (0 <? cursor (self w)) with true by (symmetry; apply Z.ltb_lt; lia).
    reflexivity.
  - apply Z.ltb_ge in E.
    assert (cursor (self w) = len (input (self w))) as Ec by lia.
    assert (i' = substring 0 (Z.to_nat (len (input (self w)) - 1)) (input (self w)))
      as ->.
    { subst i'. rewrite Ec, Z.sub_diag. simpl Z.to_nat.
      now rewrite substring_none, append_empty_r. }
    unfold bind at 1 2. rewrite !slice_in_range by lia.
    change (Z.to_nat 0) with 0%nat.
    replace (len (input (self w)) - 1 - 0) with (len (input (self w)) - 1) by lia.
    run. rewrite move_left_effect.
    cbn [self screen quotes command prompt cursor input].
    replace (0 <? cursor (self w)) with true by (symmetry; apply Z.ltb_lt; lia).
    rewrite Ec. reflexivity.
Qed.

Lemma delete_previous_character_at_0 (w : World) :
  cursor (self w) <= 0 -> delete_previous_character w = (Returned tt, w).
Proof.
  intros Hc. unfold delete_previous_character, bind at 1 2, gets at 1 2.
  replace (0 <? cursor (self w)) with false by (symmetry; apply Z.ltb_ge; lia).
  reflexivity.
Qed.

(** X1. Backspace deletes the one byte before the cursor: the buffer
    becomes the bytes before that byte followed by the bytes from the
    cursor on, one byte shorter; the cursor moves one to the left; the new
    buffer is drawn after the prompt with one blank behind it, and the
    terminal cursor is set.  With the cursor at the beginning nothing
    changes and nothing is drawn. *)
Theorem backspace_deletes_byte_before_cursor (w : World) :
  cursor_in_bounds w ->
  exists w',
    delete_previous_character w = (Returned tt, w') /\
    (cursor (self w) = 0 -> w' = w) /\
    (0 < cursor (self w) ->
     let c := cursor (self w) in
     let i := input (self w) in
     let p := prompt (self w) in
     input (self w') =
       substring 0 (Z.to_nat (c - 1)) i
       ++ substring (Z.to_nat c) (Z.to_nat (len i - c)) i /\
     len (input (self w')) = len i - 1 /\
     cursor (self w') = c - 1 /\
     quotes w' = quotes w /\
     screen w' =
       (screen w ++ [DrawLine (len p) 3 (input (self w') ++ " ");
                     SetCursor (len p + (c - 1)) 3])%list).
Proof.
  intros Hw. destruct (Z.eq_dec (cursor (self w)) 0) as [E0|N0].
  - exists w. split; [apply delete_previous_character_at_0; lia|].
    split; [reflexivity | lia].
  - assert (0 < cursor (self w)) as Hpos by (destruct Hw; lia).
    eexists. split; [apply delete_previous_character_effect; assumption|].
    split; [contradiction|]. intros _. cbv zeta. cbn [self screen quotes input cursor].
    destruct Hw as [Hlo Hhi].
    split; [reflexivity|]. split.
    { rewrite len_append, len_suffix by lia.
      unfold len at 1. rewrite length_substring by (unfold len in *; lia).
      lia. }
    split; [reflexivity|]. split; [reflexivity|].
    now rewrite <- app_assoc.
Qed.

(** X2. Typing a one-byte character and then pressing backspace gives
    back the buffer and the cursor (and the command and the prompt) as
    they were. *)
Theorem insert_then_backspace_restores (ch : Z) (w : World) :
  cursor_in_bounds w -> 0 <= ch < 128 ->
  exists w',
    bind (insert_character ch) (fun _ => delete_previous_character) w
      = (Returned tt, w') /\
    self w' = self w /\ quotes w' = quotes w.
Proof.
  intros Hw Hch. pose proof Hw as [Hlo Hhi].
  unfold bind at 1. rewrite insert_character_effect by exact Hw. cbv zeta.
  rewrite string_of_rune_ascii by exact Hch.
  match goal with |- context [delete_previous_character ?x] => set (w1 := x) end.
  assert (cursor_in_bounds w1) as Hw1.
  { unfold cursor_in_bounds, w1; simpl.
    rewrite !len_append, len_prefix, len_suffix by lia.
    change (len (String (byte_of ch) "")) with 1. lia. }
  rewrite delete_previous_character_effect by (try exact Hw1; simpl; lia).
  eexists. split; [reflexivity|]. cbn [self screen quotes]. split; [|reflexivity].
  subst w1. cbn [self input cursor prompt command].
  set (c := cursor (self w)) in *. set (i := input (self w)) in *.
  set (A := substring 0 (Z.to_nat c) i).
  set (B := substring (Z.to_nat c) (Z.to_nat (len i - c)) i).
  assert (String.length A = Z.to_nat c) as HA.
  { subst A. apply length_substring. unfold len in *. lia. }
  assert (String.length B = Z.to_nat (len i - c)) as HB.
  { subst B. apply length_substring. unfold len in *. lia. }
  assert (substring 0 (Z.to_nat (c + 1 - 1)) (A ++ String (byte_of ch) "" ++ B) = A) as ->.
  { replace (Z.to_nat (c + 1 - 1)) with (String.length A) by lia.
    apply substring_prefix_of_append. }
  assert (substring (Z.to_nat (c + 1))
            (Z.to_nat (len (A ++ String (byte_of ch) "" ++ B) - (c + 1)))
            (A ++ String (byte_of ch) "" ++ B) = B) as ->.
  { replace (Z.to_nat (c + 1)) with (String.length A + 1)%nat by lia.
    rewrite substring_past_prefix.
    replace (Z.to_nat (len (A ++ String (byte_of ch) "" ++ B) - (c + 1)))
      with (String.length B).
    2: { rewrite !len_append. unfold len. simpl. lia. }
    unfold String.app. simpl. apply substring_whole. }
  assert (A ++ B = i) as ->.
  { subst A B. replace (Z.to_nat (len i - c)) with (String.length i - Z.to_nat c)%nat
      by (unfold len; lia).
    apply substring_join. unfold len in *. lia. }
  subst c i. destruct (self w) as [cmd p c i]. simpl. f_equal. lia.
Qed.

(** X3. A character outside ASCII is typed as two to four bytes (three
    for a value that is no Unicode character), and the cursor still moves
    by one: it is left inside the bytes of the character, before the end
    of what was typed. *)
Theorem wide_rune_leaves_cursor_inside (ch : Z) (w : World) :
  cursor_in_bounds w -> ch < 0 \/ 128 <= ch ->
  exists w',
    insert_character ch w = (Returned tt, w') /\
    len (input (self w')) = len (input (self w)) + len (string_of_rune ch) /\
    2 <= len (string_of_rune ch) <= 4 /\
    cursor (self w') = cursor (self w) + 1 /\
    cursor (self w') < cursor (self w) + len (string_of_rune ch).
Proof.
  intros Hw Hch. pose proof Hw as [Hlo Hhi].
  pose proof (len_string_of_rune_wide ch Hch) as Hlen.
  eexists. split; [apply insert_character_effect, Hw|].
  cbn [self input cursor].
  rewrite !len_append, len_prefix, len_suffix by lia.
  repeat split; lia.
Qed.

(** X4. A move to the left and a move to the right undo each other:
    left then right from a cursor that is not at the beginning, right then
    left from a cursor that is not at the end; in both the buffer is not
    touched. *)
Theorem move_left_and_move_right_undo (w : World) :
  cursor_in_bounds w ->
  (0 < cursor (self w) ->
   exists w', bind move_left (fun _ => move_right) w = (Returned tt, w') /\
              self w' = self w) /\
  (cursor (self w) < len (input (self w)) ->
   exists w', bind move_right (fun _ => move_left) w = (Returned tt, w') /\
              self w' = self w).
Proof.
  intros [Hlo Hhi]. split; intros Hc.
  - unfold bind. rewrite move_left_effect.
    replace (0 <? cursor (self w)) with true by (symmetry; apply Z.ltb_lt; lia).
    rewrite move_right_effect. cbn [self cursor input].
    replace (cursor (self w) - 1 <? len (input (self w))) with true
      by (symmetry; apply Z.ltb_lt; lia).
    eexists. split; [reflexivity|]. simpl.
    destruct (self w) as [cmd p c i]. simpl. f_equal. lia.
  - unfold bind. rewrite move_right_effect.
    replace (cursor (self w) <? len (input (self w))) with true
      by (symmetry; apply Z.ltb_lt; lia).
    rewrite move_left_effect. cbn [self cursor input].
    replace (0 <? cursor (self w) + 1) with true by (symmetry; apply Z.ltb_lt; lia).
    eexists. split; [reflexivity|]. simpl.
    destruct (self w) as [cmd p c i]. simpl. f_equal. lia.
Qed.

End EditorEffects.

(** ** What an event may touch *)

Section EditorSteps.
Context `{Unicode} `{QuotesAPI}.

Lemma terminal_cursor_snoc (calls : list call) (c : call) :
  terminal_cursor (calls ++ [c]) = after_call (terminal_cursor calls) c.
Proof. unfold terminal_cursor. now rewrite fold_left_app. Qed.

Lemma edit_step_refl (w : World) : cursor_in_bounds w -> edit_step w w.
Proof.
  intros Hw. split; [exact Hw|]. do 3 (split; [reflexivity|]).
  exists []. rewrite app_nil_r. split; [reflexivity|]. split; [constructor | auto].
Qed.

Lemma edit_step_trans (w1 w2 w3 : World) :
  edit_step w1 w2 -> edit_step w2 w3 -> edit_step w1 w3.
Proof.
  intros (_ & Q1 & C1 & P1 & l1 & S1 & F1 & T1) (B2 & Q2 & C2 & P2 & l2 & S2 & F2 & T2).
  split; [exact B2|]. do 3 (split; [congruence|]).
  exists (l1 ++ l2)%list.
  split; [now rewrite S2, S1, app_assoc|].
  split; [apply Forall_app; split; assumption | auto].
Qed.

(** A state that differs by a cursor set and shown. *)
Lemma edit_step_cursor (w : World) (c : Z) (drawn : list call) :
  0 <= c <= len (input (self w)) ->
  Forall on_edit_row drawn ->
  cursor_in_bounds w ->
  edit_step w
    {| self := {| command := command (self w); prompt := prompt (self w);
                  cursor := c; input := input (self w) |};
       screen := ((screen w ++ drawn)
                    ++ [SetCursor (len (prompt (self w)) + c) 3])%list;
       quotes := quotes w |}.
Proof.
  intros Hc Hd Hw. split; [exact Hc|]. do 3 (split; [reflexivity|]).
  exists (drawn ++ [SetCursor (len (prompt (self w)) + c) 3])%list.
  cbn [screen self]. rewrite app_assoc. split; [reflexivity|]. split.
  - apply Forall_app. split; [exact Hd|]. repeat constructor.
  - intros _. unfold cursor_shown. now rewrite terminal_cursor_snoc.
Qed.

Lemma move_left_edits : edits move_left.
Proof.
  intros w Hw. rewrite move_left_effect. eexists. split; [reflexivity|].
  destruct (0 <? cursor (self w)) eqn:E; [|now apply edit_step_refl].
  apply Z.ltb_lt in E. destruct Hw as [Hlo Hhi].
  pose proof (edit_step_cursor w (cursor (self w) - 1) []) as Hs.
  rewrite app_nil_r in Hs. apply Hs; [lia | constructor | split; assumption].
Qed.

Lemma move_right_edits : edits move_right.
Proof.
  intros w Hw. rewrite move_right_effect. eexists. split; [reflexivity|].
  destruct (cursor (self w) <? len (input (self w))) eqn:E; [|now apply edit_step_refl].
  apply Z.ltb_lt in E. destruct Hw as [Hlo Hhi].
  pose proof (edit_step_cursor w (cursor (self w) + 1) []) as Hs.
  rewrite app_nil_r in Hs. apply Hs; [lia | constructor | split; assumption].
Qed.

Lemma jump_to_beginning_edits : edits jump_to_beginning.
Proof.
  intros w Hw. eexists. split; [reflexivity|]. simpl.
  pose proof (edit_step_cursor w 0 []) as Hs.
  rewrite app_nil_r in Hs. apply Hs; [|constructor|exact Hw].
  pose proof (len_nonneg (input (self w))). lia.
Qed.

Lemma jump_to_end_edits : edits jump_to_end.
Proof.
  intros w Hw. eexists. split; [reflexivity|]. simpl.
  pose proof (edit_step_cursor w (len (input (self w))) []) as Hs.
  rewrite app_nil_r in Hs. apply Hs; [|constructor|exact Hw].
  pose proof (len_nonneg (input (self w))). lia.
Qed.

(** A state that differs by a new buffer drawn, and a cursor set and
    shown. *)
Lemma edit_step_buffer (w : World) (i' : string) (c : Z) (drawn : list call) :
  0 <= c <= len i' ->
  Forall on_edit_row drawn ->
  edit_step w
    {| self := {| command := command (self w); prompt := prompt (self w);
                  cursor := c; input := i' |};
       screen := ((screen w ++ drawn)
                    ++ [SetCursor (len (prompt (self w)) + c) 3])%list;
       quotes := quotes w |}.
Proof.
  intros Hc Hd. split; [exact Hc|]. do 3 (split; [reflexivity|]).
  exists (drawn ++ [SetCursor (len (prompt (self w)) + c) 3])%list.
  cbn [screen self]. rewrite app_assoc. split; [reflexivity|]. split.
  - apply Forall_app. split; [exact Hd|]. repeat constructor.
  - intros _. unfold cursor_shown. now rewrite terminal_cursor_snoc.
Qed.

Lemma insert_character_edits (ch : Z) : edits (insert_character ch).
Proof.
  intros w Hw. eexists. split; [apply insert_character_effect, Hw|].
  destruct Hw as [Hlo Hhi]. pose proof (len_string_of_rune ch).
  apply edit_step_buffer; [|repeat constructor].
  rewrite !len_append, len_prefix, len_suffix by lia. lia.
Qed.

Lemma delete_previous_character_edits : edits delete_previous_character.
Proof.
  intros w Hw. destruct (Z_le_gt_dec (cursor (self w)) 0) as [Hzero|Hpos].
  - exists w. split; [now apply delete_previous_character_at_0|].
    now apply edit_step_refl.
  - eexists. split; [apply delete_previous_character_effect; [exact Hw | lia]|].
    destruct Hw as [Hlo Hhi].
    apply edit_step_buffer; [|repeat constructor].
    rewrite len_append, len_suffix by lia.
    unfold len at 1. rewrite length_substring by (unfold len in *; lia). lia.
Qed.

(** An event that does not end the session is a step of editing, with
    the flush at its end. *)
Lemma Handle_edit_step (ev : termbox.Event) (w : World) :
  ends_session ev = false -> cursor_in_bounds w ->
  exists w', Handle ev w = (Returned false, w') /\ edit_step w w'.
Proof.
  intros Hev Hw. unfold ends_session in Hev. apply orb_false_elim in Hev as [Esc Enter].
  unfold Handle. rewrite Esc, Enter.
  match goal with
  | |- context [bind ?op (fun _ => ret false)] => assert (edits op) as Hop
  end.
  { repeat match goal with
           | |- edits (if ?b then _ else _) => destruct b
           end;
      first [ apply delete_previous_character_edits
            | apply move_left_edits | apply move_right_edits
            | apply jump_to_beginning_edits | apply jump_to_end_edits
            | apply insert_character_edits
            | intros w0 Hw0; exists w0; split; [reflexivity | now apply edit_step_refl] ]. }
  destruct (Hop w Hw) as (w1 & E1 & Hs).
  unfold defer, bind. rewrite E1. simpl.
  eexists. split; [reflexivity|].
  apply edit_step_trans with (w2 := w1); [exact Hs|].
  destruct Hs as (B1 & _).
  split; [exact B1|]. do 3 (split; [reflexivity|]).
  exists [Flush]. split; [reflexivity|]. split; [repeat constructor|].
  unfold cursor_shown. cbn [screen self]. rewrite terminal_cursor_snoc. auto.
Qed.

Lemma Handle_each_edit_steps (evs : list termbox.Event) (w : World) :
  Forall (fun ev => ends_session ev = false) evs -> cursor_in_bounds w ->
  exists w', Handle_each evs w = (Returned tt, w') /\ edit_step w w'.
Proof.
  intros Hevs. revert w. induction Hevs as [|ev evs Hev _ IH]; intros w Hw.
  - exists w. split; [reflexivity | now apply edit_step_refl].
  - destruct (Handle_edit_step ev w Hev Hw) as (w1 & E1 & S1).
    destruct (IH w1 (proj1 S1)) as (w2 & E2 & S2).
    exists w2. simpl. unfold bind. rewrite E1.
    split; [exact E2 | now apply edit_step_trans with (w2 := w1)].
Qed.

(** X5. In a session started by [Prompt] with '+' or '-' on a new editor,
    after any events that do not end it, the terminal cursor stands in
    row 3 at the column [len(prompt) + cursor], and the cursor is within
    the bounds of the buffer. *)
Theorem terminal_cursor_follows_the_cursor
    (command : Z) (evs : list termbox.Event) (scr : list call) (q : Quotes) :
  command = 43 \/ command = 45 ->
  Forall (fun ev => ends_session ev = false) evs ->
  exists w',
    bind (Prompt command) (fun _ => Handle_each evs) (Initialize scr q new_LineEditor)
      = (Returned tt, w') /\
    cursor_in_bounds w' /\
    terminal_cursor (screen w') = Some (len (prompt (self w')) + cursor (self w'), 3).
Proof.
  intros Hcmd Hevs.
  assert (exists w0, Prompt command (Initialize scr q new_LineEditor) = (Returned tt, w0)
                     /\ cursor_in_bounds w0 /\ cursor_shown (screen w0) (self w0))
    as (w0 & E0 & B0 & T0).
  { unfold Prompt. destruct Hcmd as [-> | ->]; simpl; eexists;
      (split; [reflexivity|]);
      (split; [unfold cursor_in_bounds, len; simpl; lia|]);
      unfold cursor_shown; simpl; rewrite !terminal_cursor_snoc; reflexivity. }
  destruct (Handle_each_edit_steps evs w0 Hevs B0) as (w' & E & B & _ & _ & _ & l & _ & _ & T).
  exists w'. unfold bind. rewrite E0. split; [exact E|]. split; [exact B|].
  exact (T T0).
Qed.

(** X6. An event whose key is not Enter leaves the quotes as they are,
    and the calls it makes are on the edit row: it draws and clears in
    row 3 only and never redraws the table. *)
Theorem only_Enter_touches_quotes_and_table (ev : termbox.Event) (w : World) :
  cursor_in_bounds w ->
  termbox.Key ev <> termbox.KeyEnter ->
  exists (b : bool) (w' : World) (calls : list call),
    Handle ev w = (Returned b, w') /\
    quotes w' = quotes w /\
    screen w' = (screen w ++ calls)%list /\
    Forall on_edit_row calls.
Proof.
  intros Hw Hkey. destruct (termbox.Key ev =? termbox.KeyEsc) eqn:Esc.
  - exists true. unfold Handle. rewrite Esc.
    eexists _, [ClearLine 0 3; HideCursor; Flush]. split; [reflexivity|].
    split; [reflexivity|]. split; [simpl; now rewrite <- !app_assoc|].
    repeat constructor.
  - assert (ends_session ev = false) as Hev.
    { unfold ends_session. rewrite Esc. now apply Z.eqb_neq in Hkey as ->. }
    destruct (Handle_edit_step ev w Hev Hw) as (w' & E & _ & Q & _ & _ & l & S & F & _).
    exists false, w', l. auto.
Qed.

(** X7. Enter with the add command hands the tokens of the buffer to
    [AddTickers] once, redraws the table when a ticker was added and only
    then, clears no row of the table, and ends the session: the edit row
    is cleared and the cursor hidden. *)
Theorem Enter_adds_and_redraws_when_added
    (ev : termbox.Event) (w : World) (added : Z) (q' : Quotes) :
  termbox.Key ev = termbox.KeyEnter ->
  command (self w) = 43 ->
  AddTickers (regexp.Split (strings.ToUpper (strings.TrimSpace (input (self w)))))
    (quotes w) = (added, q') ->
  exists w',
    Handle ev w = (Returned true, w') /\
    self w' = self w /\
    quotes w' = q' /\
    screen w' =
      (screen w ++ (if 0 <? added then [Draw] else [])
       ++ [ClearLine 0 3; HideCursor; Flush])%list.
Proof.
  intros Hkey Hcmd Hadd. unfold Handle. rewrite Hkey. cbn [Z.eqb Pos.eqb termbox.KeyEnter termbox.KeyEsc].
  unfold defer, bind at 1, execute, bind at 1, gets at 1. rewrite Hcmd. cbn [Z.eqb Pos.eqb].
  unfold bind at 1. rewrite tokenize_value.
  set (tickers := regexp.Split _) in *.
  replace (0 <? Z.of_nat (length tickers)) with true.
  2: { symmetry. apply Z.ltb_lt. pose proof (Split_not_empty
         (strings.ToUpper (strings.TrimSpace (input (self w))))) as Hne.
       fold tickers in Hne. destruct tickers; [congruence | simpl; lia]. }
  unfold bind at 1, gets at 1. rewrite Hadd.
  destruct (0 <? added); simpl; eexists; (split; [reflexivity|]);
    (split; [reflexivity|]); (split; [reflexivity|]); simpl;
    rewrite <- ?app_assoc; reflexivity.
Qed.

(** X8. Enter draws nothing on the table when nothing changed: with a
    command that is neither add nor remove the quotes are not touched,
    and with the remove command and no ticker removed the table is neither
    redrawn nor cleared.  The session ends all the same. *)
Theorem Enter_without_change_leaves_the_table
    (ev : termbox.Event) (w : World) :
  let tickers := regexp.Split (strings.ToUpper (strings.TrimSpace (input (self w)))) in
  termbox.Key ev = termbox.KeyEnter ->
  command (self w) <> 43 ->
  (command (self w) = 45 -> fst (RemoveTickers tickers (quotes w)) <= 0) ->
  exists w',
    Handle ev w = (Returned true, w') /\
    self w' = self w /\
    quotes w' = (if command (self w) =? 45
                 then snd (RemoveTickers tickers (quotes w)) else quotes w) /\
    screen w' = (screen w ++ [ClearLine 0 3; HideCursor; Flush])%list.
Proof.
  intros tickers Hkey Hadd Hrm. unfold Handle. rewrite Hkey.
  cbn [Z.eqb Pos.eqb termbox.KeyEnter termbox.KeyEsc].
  unfold defer, bind at 1, execute, bind at 1, gets at 1.
  replace (command (self w) =? 43) with false by (symmetry; now apply Z.eqb_neq).
  destruct (command (self w) =? 45) eqn:E45.
  - apply Z.eqb_eq in E45. specialize (Hrm E45).
    unfold bind at 1. rewrite tokenize_value. fold tickers.
    replace (0 <? Z.of_nat (length tickers)) with true.
    2: { symmetry. apply Z.ltb_lt. pose proof (Split_not_empty
           (strings.ToUpper (strings.TrimSpace (input (self w))))) as Hne.
         fold tickers in Hne. destruct tickers; [congruence | simpl; lia]. }
    unfold bind at 1, gets at 1.
    destruct (RemoveTickers tickers (quotes w)) as [removed q'] eqn:ER. simpl in Hrm.
    replace (0 <? removed) with false by (symmetry; apply Z.ltb_ge; lia).
    simpl. eexists. split; [reflexivity|]. split; [reflexivity|].
    split; [reflexivity|]. simpl. now rewrite <- !app_assoc.
  - simpl. eexists. split; [reflexivity|]. split; [reflexivity|].
    split; [reflexivity|]. simpl. now rewrite <- !app_assoc.
Qed.

(** The event of a character, with no key, inserts the character. *)
Lemma Handle_char (r : Z) (w : World) :
  r <> 0 ->
  Handle (char r) w
  = defer (emit Flush) (bind (insert_character r) (fun _ => ret false)) w.
Proof.
  intros Hr. unfold Handle.
  change (termbox.Key (char r)) with 0. change (termbox.Ch (char r)) with r.
  repeat match goal with
         | |- context [0 =? ?k] =>
             let v := eval vm_compute in (0 =? k) in change (0 =? k) with v
         end.
  cbn [orb]. replace (r =? 0) with false by (symmetry; now apply Z.eqb_neq).
  reflexivity.
Qed.

(** The key of backspace deletes. *)
Lemma Handle_Backspace (w : World) :
  Handle (key termbox.KeyBackspace) w
  = defer (emit Flush) (bind delete_previous_character (fun _ => ret false)) w.
Proof. reflexivity. Qed.

(** X9. Typing one-byte characters inserts them at the cursor in the
    order typed: the buffer becomes the bytes before the cursor, the bytes
    typed, and the bytes from the cursor on; the cursor stands behind the
    bytes typed; the quotes are not touched. *)
Theorem typing_inserts_at_the_cursor (runes : list Z) (w : World) :
  Forall (fun r => 1 <= r < 128) runes ->
  cursor_in_bounds w ->
  exists w',
    Handle_each (char <$> runes) w = (Returned tt, w') /\
    input (self w') =
      substring 0 (Z.to_nat (cursor (self w))) (input (self w))
      ++ string_of_runes runes
      ++ substring (Z.to_nat (cursor (self w)))
           (Z.to_nat (len (input (self w)) - cursor (self w))) (input (self w)) /\
    cursor (self w') = cursor (self w) + Z.of_nat (length runes) /\
    cursor_in_bounds w' /\
    quotes w' = quotes w.
Proof.
  intros Hrunes. revert w. induction Hrunes as [|r runes Hr _ IH]; intros w Hw.
  - exists w. pose proof Hw as [Hlo Hhi]. simpl.
    split; [reflexivity|]. split.
    { replace (Z.to_nat (len (input (self w)) - cursor (self w)))
        with (String.length (input (self w)) - Z.to_nat (cursor (self w)))%nat
        by (unfold len; lia).
      symmetry. apply substring_join. unfold len in *. lia. }
    split; [lia|]. split; [exact Hw | reflexivity].
  - pose proof Hw as [Hlo Hhi].
    cbn [fmap list_fmap Handle_each]. unfold bind at 1.
    rewrite Handle_char by lia. unfold defer, bind at 1.
    rewrite insert_character_effect by exact Hw. cbv zeta.
    unfold ret at 1, emit at 1, modify at 1.
    rewrite string_of_rune_ascii by lia.
    match goal with |- context [Handle_each _ ?x] => set (w1 := x) end.
    set (c := cursor (self w)) in *. set (i := input (self w)) in *.
    set (A := substring 0 (Z.to_nat c) i).
    set (B := substring (Z.to_nat c) (Z.to_nat (len i - c)) i).
    assert (String.length A = Z.to_nat c) as HA.
    { subst A. apply length_substring. unfold len in *. lia. }
    assert (String.length B = Z.to_nat (len i - c)) as HB.
    { subst B. apply length_substring. unfold len in *. lia. }
    assert (input (self w1) = A ++ String (byte_of r) "" ++ B) as Hi1 by reflexivity.
    assert (cursor (self w1) = c + 1) as Hc1 by reflexivity.
    assert (len (input (self w1)) = len i + 1) as Hl1.
    { rewrite Hi1, !len_append. unfold len in *. simpl. lia. }
    destruct (IH w1) as (w' & E & HI & HC & HB' & HQ).
    { unfold cursor_in_bounds. rewrite Hl1, Hc1. lia. }
    exists w'. split; [exact E|].
    split; [|split; [rewrite HC, Hc1; simpl length; lia | split; [exact HB' | exact HQ]]].
    rewrite HI, Hl1, Hc1, Hi1.
    assert (substring 0 (Z.to_nat (c + 1)) (A ++ String (byte_of r) "" ++ B)
            = A ++ String (byte_of r) "") as ->.
    { rewrite <- append_assoc.
      replace (Z.to_nat (c + 1)) with (String.length (A ++ String (byte_of r) ""))
        by (rewrite length_append; simpl; lia).
      apply substring_prefix_of_append. }
    assert (substring (Z.to_nat (c + 1)) (Z.to_nat (len i + 1 - (c + 1)))
              (A ++ String (byte_of r) "" ++ B) = B) as ->.
    { replace (Z.to_nat (c + 1)) with (String.length A + 1)%nat by lia.
      rewrite substring_past_prefix.
      replace (Z.to_nat (len i + 1 - (c + 1))) with (String.length B) by lia.
      unfold String.app. simpl. apply substring_whole. }
    cbn [string_of_runes]. rewrite string_of_rune_ascii by lia.
    now rewrite !append_assoc.
Qed.

(** ** More on substrings *)

Lemma substring_0_of_append (k : nat) (a b : string) :
  (k <= String.length a)%nat -> substring 0 k (a ++ b) = substring 0 k a.
Proof.
  revert k. induction a as [|x a IH]; intros k Hk; simpl in Hk.
  - replace k with 0%nat by lia. simpl. now rewrite substring_none.
  - destruct k as [|k]; [reflexivity|].
    unfold String.app in *. simpl. rewrite IH by lia. reflexivity.
Qed.

Lemma substring_0_of_substring_0 (k m : nat) (s : string) :
  (k <= m)%nat -> substring 0 k (substring 0 m s) = substring 0 k s.
Proof.
  revert k m. induction s as [|x s IH]; intros k m Hk.
  - destruct m, k; reflexivity.
  - destruct k as [|k]; [destruct m; reflexivity|].
    destruct m as [|m]; [lia|]. simpl. rewrite IH by lia. reflexivity.
Qed.

(** X21. Backspace pressed [n] times deletes the [n] bytes before the
    cursor, or all of them when there are fewer: the bytes from the cursor
    on stay, the cursor moves [n] to the left and stops at the beginning.
    The quotes are not touched. *)
Theorem backspaces_delete_back_to_the_beginning (n : nat) (w : World) :
  cursor_in_bounds w ->
  exists w',
    Handle_each (repeat (key termbox.KeyBackspace) n) w = (Returned tt, w') /\
    input (self w') =
      substring 0 (Z.to_nat (cursor (self w) - Z.of_nat n)) (input (self w))
      ++ substring (Z.to_nat (cursor (self w)))
           (Z.to_nat (len (input (self w)) - cursor (self w))) (input (self w)) /\
    cursor (self w') = Z.max 0 (cursor (self w) - Z.of_nat n) /\
    cursor_in_bounds w' /\
    quotes w' = quotes w.
Proof.
  revert w. induction n as [|n IH]; intros w Hw; pose proof Hw as [Hlo Hhi].
  - exists w. simpl. split; [reflexivity|]. split.
    { rewrite Z.sub_0_r.
      replace (Z.to_nat (len (input (self w)) - cursor (self w)))
        with (String.length (input (self w)) - Z.to_nat (cursor (self w)))%nat
        by (unfold len; lia).
      symmetry. apply substring_join. unfold len in *. lia. }
    split; [lia|]. split; [exact Hw | reflexivity].
  - cbn [repeat Handle_each]. unfold bind at 1.
    rewrite Handle_Backspace. unfold defer, bind at 1.
    destruct (Z.eq_dec (cursor (self w)) 0) as [E0|N0].
    + rewrite delete_previous_character_at_0 by lia.
      unfold ret at 1, emit at 1, modify at 1.
      match goal with |- context [Handle_each _ ?x] => set (w1 := x) end.
      destruct (IH w1 Hw) as (w' & E & HI & HC & HB & HQ).
      exists w'. split; [exact E|].
      subst w1. cbn [self input cursor quotes] in *.
      split; [|split; [rewrite HC; lia | split; [exact HB | exact HQ]]].
      rewrite HI. f_equal. f_equal. lia.
    + rewrite delete_previous_character_effect by (try exact Hw; lia). cbv zeta.
      unfold ret at 1, emit at 1, modify at 1.
      match goal with |- context [Handle_each _ ?x] => set (w1 := x) end.
      set (c := cursor (self w)) in *. set (i := input (self w)) in *.
      set (A := substring 0 (Z.to_nat (c - 1)) i).
      set (B := substring (Z.to_nat c) (Z.to_nat (len i - c)) i).
      assert (String.length A = Z.to_nat (c - 1)) as HA.
      { subst A. apply length_substring. unfold len in *. lia. }
      assert (String.length B = Z.to_nat (len i - c)) as HB.
      { subst B. apply length_substring. unfold len in *. lia. }
      assert (input (self w1) = A ++ B) as Hi1 by reflexivity.
      assert (cursor (self w1) = c - 1) as Hc1 by reflexivity.
      assert (len (input (self w1)) = len i - 1) as Hl1.
      { rewrite Hi1, len_append. unfold len in *. lia. }
      destruct (IH w1) as (w' & E & HI & HC & HB' & HQ).
      { unfold cursor_in_bounds. rewrite Hl1, Hc1. lia. }
      exists w'. split; [exact E|].
      split; [|split; [rewrite HC, Hc1; lia | split; [exact HB' | exact HQ]]].
      rewrite HI, Hl1, Hc1, Hi1.
      assert (substring 0 (Z.to_nat (c - 1 - Z.of_nat n)) (A ++ B)
              = substring 0 (Z.to_nat (c - Z.of_nat (S n))) i) as ->.
      { replace (Z.to_nat (c - Z.of_nat (S n))) with (Z.to_nat (c - 1 - Z.of_nat n)) by lia.
        rewrite substring_0_of_append by lia.
        subst A. apply substring_0_of_substring_0. lia. }
      assert (substring (Z.to_nat (c - 1)) (Z.to_nat (len i - 1 - (c - 1))) (A ++ B) = B) as ->.
      { replace (Z.to_nat (c - 1)) with (String.length A + 0)%nat by lia.
        rewrite substring_past_prefix.
        replace (Z.to_nat (len i - 1 - (c - 1))) with (String.length B) by lia.
        apply substring_whole. }
      reflexivity.
Qed.

(** X22. Ctrl-A and Ctrl-E put the cursor at the beginning and at the
    end of the buffer wherever it was, also outside the bounds: the buffer
    and the quotes are as before, the terminal cursor is set behind the
    prompt at the new place, and the terminal is flushed. *)
Theorem jumps_put_the_cursor_at_the_ends (w : World) :
  (exists w',
     Handle (key termbox.KeyCtrlA) w = (Returned false, w') /\
     cursor (self w') = 0 /\
     input (self w') = input (self w) /\ quotes w' = quotes w /\
     cursor_in_bounds w' /\
     screen w' = (screen w ++ [SetCursor (len (prompt (self w))) 3; Flush])%list) /\
  (exists w',
     Handle (key termbox.KeyCtrlE) w = (Returned false, w') /\
     cursor (self w') = len (input (self w)) /\
     input (self w') = input (self w) /\ quotes w' = quotes w /\
     cursor_in_bounds w' /\
     screen w' =
       (screen w ++ [SetCursor (len (prompt (self w)) + len (input (self w))) 3;
                     Flush])%list).
Proof.
  pose proof (len_nonneg (input (self w))) as Hlen.
  split; eexists; (split; [reflexivity|]); cbn [self cursor input quotes screen];
    (split; [reflexivity|]); (split; [reflexivity|]); (split; [reflexivity|]);
    (split; [unfold cursor_in_bounds; cbn [self cursor input]; lia|]);
    rewrite <- app_assoc; cbn [app]; rewrite ?Z.add_0_r; reflexivity.
Qed.

(** X23. [Handle] reads the character of an event only when the key is
    none of those it has a case for: with such a key the event is handled
    as the key alone, whatever character it carries; with any other key
    it is handled as the character alone. *)
Theorem Handle_reads_the_key_before_the_character (ev : termbox.Event) (w : World) :
  Handle ev w =
    if handled_key (termbox.Key ev) then Handle (key (termbox.Key ev)) w
    else Handle (char (termbox.Ch ev)) w.
Proof.
  destruct (handled_key (termbox.Key ev)) eqn:Hk; unfold handled_key in Hk.
  - unfold Handle. change (termbox.Key (key (termbox.Key ev))) with (termbox.Key ev).
    cbv zeta.
    repeat match goal with
           | |- context [termbox.Key ev =? ?k] =>
               destruct (termbox.Key ev =? k) eqn:?; [reflexivity|]; cbn [orb]
           end.
    repeat match goal with
           | E : (termbox.Key ev =? _) = false |- _ => rewrite E in Hk; clear E
           end.
    discriminate Hk.
  - repeat (apply orb_false_iff in Hk; destruct Hk as [Hk ?]).
    unfold Handle. cbv zeta.
    repeat match goal with
           | E : (termbox.Key ev =? _) = false |- _ => rewrite E; clear E
           end.
    change (termbox.Key (char (termbox.Ch ev))) with 0.
    change (termbox.Ch (char (termbox.Ch ev))) with (termbox.Ch ev).
    repeat match goal with
           | |- context [0 =? ?k] =>
               let v := eval vm_compute in (0 =? k) in change (0 =? k) with v
           end.
    reflexivity.
Qed.

(** X24. [Prompt] draws the prompt and nothing else.  With a command
    other than '+' and '-' it does nothing at all.  With one of the two
    it stores the command and its prompt, draws the prompt in white on
    row 3 and sets the terminal cursor behind it; the buffer and the
    cursor are not touched and the buffer is not drawn, so the terminal
    cursor stands at the editor's cursor when that is 0 and only then. *)
Theorem Prompt_draws_the_prompt_only (cmd : Z) (w : World) :
  exists w',
    Prompt cmd w = (Returned tt, w') /\
    input (self w') = input (self w) /\
    cursor (self w') = cursor (self w) /\
    quotes w' = quotes w /\
    match prompts cmd with
    | None => w' = w
    | Some text =>
        command (self w') = cmd /\ prompt (self w') = text /\
        screen w' = (screen w ++ [DrawLine 0 3 ("<white>" ++ text ++ "</>");
                                  SetCursor (len text) 3; Flush])%list /\
        (cursor_shown (screen w') (self w') <-> cursor (self w) = 0)
    end.
Proof.
  unfold Prompt. destruct (prompts cmd) as [text|].
  - eexists. split; [reflexivity|]. cbn [self screen quotes input cursor command prompt].
    do 5 (split; [reflexivity|]).
    split; [now rewrite <- !app_assoc|].
    unfold cursor_shown. cbn [self screen prompt cursor].
    rewrite !terminal_cursor_snoc. cbn [after_call].
    split; [intros E; inversion E; lia | intros ->; now rewrite Z.add_0_r].
  - exists w. auto.
Qed.

End EditorSteps.

(** ** The tokens of the buffer *)

Lemma substring_bytes (s : string) (n m : nat) (c : ascii) :
  byte_in c (substring n m s) -> byte_in c s.
Proof.
  intros [i Hi]. destruct (Nat.lt_ge_cases i m) as [Hlt|Hge].
  - rewrite substring_correct1 in Hi by exact Hlt. now exists (i + n)%nat.
  - rewrite substring_correct2 in Hi by exact Hge. discriminate.
Qed.

Lemma substring_clean (s : string) (a b : nat) :
  clean s a b -> separator_free (substring a (b - a) s).
Proof.
  intros Hclean c [i Hi]. destruct (Nat.lt_ge_cases i (b - a)) as [Hlt|Hge].
  - rewrite substring_correct1 in Hi by exact Hlt.
    apply (Hclean (i + a)%nat c); [lia | exact Hi].
  - rewrite substring_correct2 in Hi by exact Hge. discriminate.
Qed.

(** The loop of [Split] over the matches that [find_all] gives for the
    rest [s] of the string [whole], read from the index [off]: every
    token is free of separators, and so are the bytes after the last
    match. *)
Lemma split_loop_clean (whole : string) :
  forall (s : string) (off : nat) (run : option nat) (beg end_ : nat)
         (strs : list string),
    (forall i, String.get i s = String.get (off + i) whole) ->
    (off + String.length s = String.length whole)%nat ->
    match run with
    | None => (beg <= off)%nat /\ clean whole beg off
    | Some b => (beg <= b < off)%nat /\ clean whole beg b
    end ->
    Forall separator_free strs ->
    match regexp.split_loop whole (regexp.find_all off run s) beg end_ strs with
    | (beg', _, strs') =>
        Forall separator_free strs' /\
        (beg' <= String.length whole)%nat /\
        clean whole beg' (String.length whole)
    end.
Proof.
  induction s as [|c s IH]; intros off run beg end_ strs Hs Hlen Hrun Hstrs.
  - simpl in Hlen. rewrite Nat.add_0_r in Hlen. subst off.
    destruct run as [b|]; simpl.
    + destruct Hrun as [Hb Hclean].
      replace (Nat.eqb (String.length whole) 0) with false
        by (symmetry; apply Nat.eqb_neq; lia).
      split; [|split; [lia | intros i x Hi; lia]].
      apply Forall_app. split; [exact Hstrs|].
      constructor; [|constructor]. now apply substring_clean.
    + destruct Hrun as [Hb Hclean]. auto.
  - assert (String.get off whole = Some c) as Hc.
    { specialize (Hs 0%nat). simpl in Hs. now rewrite Nat.add_0_r in Hs. }
    assert (forall i, String.get i s = String.get (S off + i) whole) as Hs'.
    { intros i. specialize (Hs (S i)). simpl in Hs.
      now replace (S off + i)%nat with (off + S i)%nat by lia. }
    assert (S off + String.length s = String.length whole)%nat as Hlen'
      by (simpl in Hlen; lia).
    simpl. destruct (regexp.in_class c) eqn:Ec.
    + apply IH; try assumption.
      destruct run as [b|]; destruct Hrun as [Hb Hclean]; split; try lia; assumption.
    + destruct run as [b|]; destruct Hrun as [Hb Hclean].
      * simpl.
        replace (Nat.eqb off 0) with false by (symmetry; apply Nat.eqb_neq; lia).
        apply IH; try assumption.
        -- split; [lia|]. intros i x Hi Hx.
           assert (i = off) by lia. subst i. congruence.
        -- apply Forall_app. split; [exact Hstrs|].
           constructor; [|constructor]. now apply substring_clean.
      * apply IH; try assumption.
        split; [lia|]. intros i x Hi Hx.
        destruct (Nat.eq_dec i off) as [->|Hne]; [congruence|].
        apply (Hclean i x); [lia | exact Hx].
Qed.

(** No token of [Split] holds a comma or one of the white space bytes of
    the expression. *)
Lemma Split_separator_free (s : string) : Forall separator_free (regexp.Split s).
Proof.
  unfold regexp.Split. destruct (Nat.eqb (String.length s) 0) eqn:E0.
  - constructor; [|constructor]. intros c [i Hi]. destruct i; discriminate.
  - pose proof (split_loop_clean s s 0 None 0 0 []) as Hclean.
    destruct (regexp.split_loop s (regexp.find_all 0 None s) 0 0 [])
      as [[beg end_] strs].
    assert (Forall separator_free strs /\ (beg <= String.length s)%nat
            /\ clean s beg (String.length s)) as (Hstrs & Hbeg & Hc).
    { apply Hclean.
      - intros i. reflexivity.
      - reflexivity.
      - split; [lia|]. intros i c Hi. lia.
      - constructor. }
    destruct (Nat.eqb end_ (String.length s)); [exact Hstrs|].
    apply Forall_app. split; [exact Hstrs|].
    constructor; [|constructor]. now apply substring_clean.
Qed.

(** Every byte of a token of [Split] is a byte of the string. *)
Lemma split_loop_bytes (whole : string) (matches : list (nat * nat))
    (beg end_ : nat) (strs : list string) :
  Forall (fun t => forall c, byte_in c t -> byte_in c whole) strs ->
  Forall (fun t => forall c, byte_in c t -> byte_in c whole)
    (snd (regexp.split_loop whole matches beg end_ strs)).
Proof.
  revert beg end_ strs. induction matches as [|[m0 m1] rest IH];
    intros beg end_ strs Hstrs; simpl; [exact Hstrs|].
  apply IH. destruct (Nat.eqb m1 0); [exact Hstrs|].
  apply Forall_app. split; [exact Hstrs|].
  constructor; [|constructor]. intros c. apply substring_bytes.
Qed.

Lemma Split_bytes (s : string) :
  Forall (fun t => forall c, byte_in c t -> byte_in c s) (regexp.Split s).
Proof.
  unfold regexp.Split. destruct (Nat.eqb (String.length s) 0).
  - constructor; [|constructor]. intros c [i Hi]. destruct i; discriminate.
  - pose proof (split_loop_bytes s (regexp.find_all 0 None s) 0 0 []) as Hloop.
    destruct (regexp.split_loop s (regexp.find_all 0 None s) 0 0 [])
      as [[beg end_] strs].
    simpl in Hloop. specialize (Hloop ltac:(constructor)).
    destruct (Nat.eqb end_ (String.length s)); [exact Hloop|].
    apply Forall_app. split; [exact Hloop|].
    constructor; [|constructor]. intros c. apply substring_bytes.
Qed.

Lemma last_byte_of_nonempty (d : ascii) (s : string) :
  exists b, last_byte (String d s) = Some b.
Proof.
  revert d. induction s as [|c s IH]; intros d; [now exists d|].
  destruct (IH c) as [b Hb]. exists b. exact Hb.
Qed.

Lemma tail_open_after_separator (run run' : option nat) (c : ascii) (s : string) :
  tail_open run (String c s) -> regexp.in_class c = true -> tail_open run' s.
Proof.
  unfold tail_open. destruct s as [|d s]; intros Ht Hc.
  - cbn [last_byte] in Ht. congruence.
  - change (last_byte (String c (String d s))) with (last_byte (String d s)) in Ht.
    destruct (last_byte_of_nonempty d s) as [b Hb]. now rewrite Hb in *.
Qed.

Lemma tail_open_after_byte (run : option nat) (c : ascii) (s : string) :
  tail_open run (String c s) -> tail_open None s.
Proof.
  unfold tail_open. destruct s as [|d s]; intros Ht.
  - reflexivity.
  - change (last_byte (String c (String d s))) with (last_byte (String d s)) in Ht.
    destruct (last_byte_of_nonempty d s) as [b Hb]. now rewrite Hb in *.
Qed.

(** The loop of [Split] when the string neither starts nor ends with a
    separator: no token is empty, and a byte is left after the last
    match. *)
Lemma split_loop_nonempty (whole : string) :
  forall (s : string) (off : nat) (run : option nat) (beg end_ : nat)
         (strs : list string),
    (off + String.length s = String.length whole)%nat ->
    tail_open run s ->
    match run with
    | None => (beg <= off)%nat /\
              ((beg < off)%nat \/
               exists c s', s = String c s' /\ regexp.in_class c = false)
    | Some b => (beg < b < off)%nat
    end ->
    Forall (fun t => t <> "") strs ->
    match regexp.split_loop whole (regexp.find_all off run s) beg end_ strs with
    | (beg', _, strs') =>
        Forall (fun t => t <> "") strs' /\ (beg' < String.length whole)%nat
    end.
Proof.
  induction s as [|c s IH]; intros off run beg end_ strs Hlen Htail Hrun Hstrs.
  - simpl in Hlen. unfold tail_open in Htail. simpl in Htail. subst run. simpl.
    split; [exact Hstrs|]. destruct Hrun as [_ [Hlt | (c & s' & E & _)]];
      [lia | discriminate].
  - assert (S off + String.length s = String.length whole)%nat as Hlen'
      by (simpl in Hlen; lia).
    simpl. destruct (regexp.in_class c) eqn:Ec.
    + apply IH; try assumption.
      * now apply tail_open_after_separator with (run := run) (c := c).
      * destruct run as [b|]; [lia|].
        destruct Hrun as [Hle [Hlt | (c' & s' & E & Hc')]]; [lia|].
        inversion E; subst. congruence.
    + assert (tail_open None s) as Htail'
        by now apply tail_open_after_byte with (run := run) (c := c).
      destruct run as [b|].
      * simpl.
        replace (Nat.eqb off 0) with false by (symmetry; apply Nat.eqb_neq; lia).
        apply IH; try assumption.
        -- split; [lia|]. left. lia.
        -- apply Forall_app. split; [exact Hstrs|].
           constructor; [|constructor]. intros E.
           apply (f_equal String.length) in E.
           rewrite length_substring in E by lia. simpl in E. lia.
      * apply IH; try assumption.
        destruct Hrun as [Hle _]. split; [lia|]. left. lia.
Qed.

(** When the string is not empty and neither its first nor its last byte
    is a separator, no token of [Split] is empty. *)
Lemma Split_nonempty_tokens (s : string) (a b : ascii) :
  first_byte s = Some a -> regexp.in_class a = false ->
  last_byte s = Some b -> regexp.in_class b = false ->
  Forall (fun t => t <> "") (regexp.Split s).
Proof.
  intros Ha Hca Hb Hcb. unfold regexp.Split.
  destruct s as [|c s']; [discriminate Ha|].
  change (Nat.eqb (String.length (String c s')) 0) with false. cbv iota.
  set (s := String c s') in *.
  pose proof (split_loop_nonempty s s 0 None 0 0 []) as Hloop.
  destruct (regexp.split_loop s (regexp.find_all 0 None s) 0 0 [])
    as [[beg end_] strs].
  assert (Forall (fun t => t <> "") strs /\ (beg < String.length s)%nat)
    as (Hstrs & Hbeg).
  { apply Hloop.
    - reflexivity.
    - unfold tail_open. now rewrite Hb.
    - split; [lia|]. right. exists c, s'. split; [reflexivity|].
      unfold first_byte in Ha. simpl in Ha. congruence.
    - constructor. }
  clearbody s.
  destruct (Nat.eqb end_ (String.length s)); [exact Hstrs|].
  apply Forall_app. split; [exact Hstrs|].
  constructor; [|constructor]. intros E.
  apply (f_equal String.length) in E.
  rewrite length_substring in E by lia.
  change (String.length "") with 0%nat in E. lia.
Qed.

(** *** Bytes, upper case and trimming *)

Lemma code_of_range (c : ascii) : 0 <= code_of c < 256.
Proof. unfold code_of. pose proof (N_ascii_bounded c). lia. Qed.

Lemma code_of_byte_of (k : Z) : 0 <= k < 256 -> code_of (byte_of k) = k.
Proof.
  intros Hk. unfold code_of, byte_of. rewrite N_ascii_embedding by lia. lia.
Qed.

Lemma byte_of_code_of (c : ascii) : byte_of (code_of c) = c.
Proof. unfold code_of, byte_of. rewrite N2Z.id. apply ascii_N_embedding. Qed.

Lemma upper_byte_not_lower (c : ascii) : is_lower (strings.upper_byte c) = false.
Proof.
  unfold strings.upper_byte. pose proof (code_of_range c).
  destruct ((97 <=? code_of c) && (code_of c <=? 122)) eqn:E.
  - apply andb_true_iff in E as [E1 E2]. apply Z.leb_le in E1, E2.
    unfold is_lower. rewrite code_of_byte_of by lia.
    apply andb_false_iff. left. apply Z.leb_gt. lia.
  - exact E.
Qed.

Lemma upper_byte_in_class (c : ascii) :
  regexp.in_class (strings.upper_byte c) = regexp.in_class c.
Proof.
  unfold strings.upper_byte. pose proof (code_of_range c).
  destruct ((97 <=? code_of c) && (code_of c <=? 122)) eqn:E; [|reflexivity].
  apply andb_true_iff in E as [E1 E2]. apply Z.leb_le in E1, E2.
  unfold regexp.in_class. rewrite code_of_byte_of by lia. cbv zeta.
  repeat match goal with
         | |- context [?a =? ?b] =>
             replace (a =? b) with false by (symmetry; apply Z.eqb_neq; lia)
         end.
  reflexivity.
Qed.

(** Outside the class of separators: neither a comma nor white space. *)
Lemma not_in_class (c : ascii) :
  strings.asciiSpace c = false -> c <> ","%char -> regexp.in_class c = false.
Proof.
  intros Hs Hc. unfold regexp.in_class, strings.asciiSpace in *. cbv zeta in *.
  assert (code_of c <> 44) as H44.
  { intros E. apply Hc. rewrite <- (byte_of_code_of c), E. reflexivity. }
  repeat (apply orb_false_elim in Hs as [Hs ?]).
  repeat (apply orb_false_intro); try assumption.
  now apply Z.eqb_neq.
Qed.

Lemma get_map_bytes (f : ascii -> ascii) (s : string) (i : nat) :
  String.get i (strings.map_bytes f s) = f <$> String.get i s.
Proof.
  revert i. induction s as [|c s IH]; intros [|i]; simpl; auto.
Qed.

Lemma last_byte_map_bytes (f : ascii -> ascii) (s : string) :
  last_byte (strings.map_bytes f s) = f <$> last_byte s.
Proof.
  induction s as [|c s IH]; [reflexivity|].
  destruct s as [|d s]; [reflexivity|]. exact IH.
Qed.

Lemma is_ascii_trim_left (s : string) :
  strings.is_ascii s = true -> strings.is_ascii (strings.trim_left s) = true.
Proof.
  induction s as [|c s IH]; [reflexivity|]. simpl. intros Hs.
  destruct (strings.asciiSpace c); [|exact Hs].
  apply IH. now apply andb_true_iff in Hs as [_ Hs].
Qed.

Lemma is_ascii_trim_right (s : string) :
  strings.is_ascii s = true -> strings.is_ascii (strings.trim_right s) = true.
Proof.
  induction s as [|c s IH]; [reflexivity|]. simpl. intros Hs.
  apply andb_true_iff in Hs as [Hc Hs]. specialize (IH Hs).
  destruct (strings.trim_right s) as [|d t].
  - destruct (strings.asciiSpace c); [reflexivity|]. simpl. now rewrite Hc.
  - simpl in *. now rewrite Hc, IH.
Qed.

Lemma first_byte_trim_left (s : string) (a : ascii) :
  first_byte (strings.trim_left s) = Some a -> strings.asciiSpace a = false.
Proof.
  induction s as [|c s IH]; [discriminate|]. simpl.
  destruct (strings.asciiSpace c) eqn:E; [exact IH|].
  unfold first_byte. simpl. congruence.
Qed.

Lemma first_byte_trim_right (s : string) (a : ascii) :
  first_byte (strings.trim_right s) = Some a -> first_byte s = Some a.
Proof.
  destruct s as [|c s]; [discriminate|]. simpl.
  destruct (strings.trim_right s); [destruct (strings.asciiSpace c)|];
    unfold first_byte; simpl; congruence.
Qed.

Lemma last_byte_trim_right (s : string) (b : ascii) :
  last_byte (strings.trim_right s) = Some b -> strings.asciiSpace b = false.
Proof.
  induction s as [|c s IH]; [discriminate|]. simpl.
  destruct (strings.trim_right s) as [|d t].
  - destruct (strings.asciiSpace c) eqn:E; [discriminate|]. simpl. congruence.
  - exact IH.
Qed.

Section TokenFacts.
Context `{Unicode} `{QuotesAPI}.

(** X10. No token that [tokenize] returns holds a comma or one of the
    white space bytes that separate tokens (tab, line feed, form feed,
    carriage return, space), whatever the buffer. *)
Theorem tokens_hold_no_separator (w : World) :
  exists tokens : list string,
    tokenize w = (Returned tokens, w) /\
    Forall (fun t => forall c : ascii, byte_in c t -> regexp.in_class c = false) tokens.
Proof.
  eexists. split; [apply tokenize_value|]. apply Split_separator_free.
Qed.

(** X11. For a buffer of ASCII bytes no token holds a lower-case letter:
    the tokens are made of bytes of the trimmed buffer in upper case. *)
Theorem tokens_of_ASCII_buffer_are_upper_case (w : World) :
  strings.is_ascii (input (self w)) = true ->
  exists tokens : list string,
    tokenize w = (Returned tokens, w) /\
    Forall (fun t => forall c : ascii, byte_in c t -> is_lower c = false) tokens.
Proof.
  intros Hascii. eexists. split; [apply tokenize_value|].
  unfold strings.TrimSpace, strings.ToUpper. rewrite Hascii.
  rewrite is_ascii_trim_right by now apply is_ascii_trim_left.
  eapply Forall_impl; [apply Split_bytes|].
  intros t Ht c Hc. destruct (Ht c Hc) as [i Hi].
  rewrite get_map_bytes in Hi.
  destruct (String.get i _) as [c0|]; [|discriminate].
  inversion Hi. apply upper_byte_not_lower.
Qed.

(** X12. For a buffer of ASCII bytes that, trimmed of white space, is
    not empty and neither begins nor ends with a comma, no token is the
    empty string. *)
Theorem tokens_nonempty_without_commas_at_the_ends (w : World) (a b : ascii) :
  strings.is_ascii (input (self w)) = true ->
  first_byte (strings.TrimSpace (input (self w))) = Some a ->
  last_byte (strings.TrimSpace (input (self w))) = Some b ->
  a <> ","%char -> b <> ","%char ->
  exists tokens : list string,
    tokenize w = (Returned tokens, w) /\
    tokens <> [] /\
    Forall (fun t => t <> "") tokens.
Proof.
  intros Hascii Ha Hb Hca Hcb. eexists. split; [apply tokenize_value|].
  split; [apply Split_not_empty|].
  unfold strings.TrimSpace, strings.ToUpper in *. rewrite Hascii in *.
  rewrite is_ascii_trim_right by now apply is_ascii_trim_left.
  set (t := strings.trim_right (strings.trim_left (input (self w)))) in *.
  assert (strings.asciiSpace a = false) as Hsa.
  { apply first_byte_trim_right in Ha. now apply first_byte_trim_left in Ha. }
  assert (strings.asciiSpace b = false) as Hsb by now apply last_byte_trim_right in Hb.
  apply Split_nonempty_tokens
    with (a := strings.upper_byte a) (b := strings.upper_byte b).
  - unfold first_byte in *. now rewrite get_map_bytes, Ha.
  - rewrite upper_byte_in_class. now apply not_in_class.
  - now rewrite last_byte_map_bytes, Hb.
  - rewrite upper_byte_in_class. now apply not_in_class.
Qed.

End TokenFacts.

(* ================================================================= *)
(** * Further properties of the market *)

Section MarketMore.
Variable float2Str : float -> string.

(** ** The record that [assign] makes *)

Lemma assign_cases {S} (results : list (gomap iface)) (position : Z)
    (changeAsPercent : bool) (s : S) :
  assign float2Str results position changeAsPercent s =
    match (if 0 <=? position then results !! Z.to_nat position else None) with
    | None => (Panicked IndexOutOfRange, s)
    | Some r =>
        match map_index r "regularMarketChange",
              map_index r "regularMarketPrice",
              map_index r "regularMarketChangePercent" with
        | JNumber change, JNumber price, JNumber percent =>
            (Returned
               (if changeAsPercent then
                  <["change" := float2Str percent ++ "%"]>
                    (<["latest" := float2Str price]>
                       (<["change" := float2Str change]> ∅))
                else
                  <["percent" := float2Str percent ++ "%"]>
                    (<["latest" := float2Str price]>
                       (<["change" := float2Str change]> ∅))), s)
        | _, _, _ => (Panicked InterfaceConversion, s)
        end
    end.
Proof.
  unfold assign, index, bind.
  destruct (if 0 <=? position then results !! Z.to_nat position else None) as [r|];
    [|reflexivity].
  unfold ret. cbv beta iota.
  destruct (map_index r "regularMarketChange"); try reflexivity;
    destruct (map_index r "regularMarketPrice"); try reflexivity;
    destruct (map_index r "regularMarketChangePercent");
    destruct changeAsPercent; reflexivity.
Qed.

(** X13. The record that [assign] returns for an entry holds the price
    under [latest], and either the change under [change] and the change in
    percent, with a percent sign, under [percent], or, when the change is
    asked as percent, the change in percent under [change] and no
    [percent].  It has no other key, and the state is not touched. *)
Theorem assign_makes_the_record {S} (results : list (gomap iface)) (position : Z)
    (changeAsPercent : bool) (s s' : S) (v : gmap string string) :
  assign float2Str results position changeAsPercent s = (Returned v, s') ->
  s' = s /\
  exists (r : gomap iface) (change price percent : float),
    0 <= position < Z.of_nat (length results) /\
    results !! Z.to_nat position = Some r /\
    map_index r "regularMarketChange" = JNumber change /\
    map_index r "regularMarketPrice" = JNumber price /\
    map_index r "regularMarketChangePercent" = JNumber percent /\
    v !! "latest" = Some (float2Str price) /\
    v !! "change" = Some (if changeAsPercent then float2Str percent ++ "%"
                          else float2Str change) /\
    v !! "percent" = (if changeAsPercent then None
                      else Some (float2Str percent ++ "%")) /\
    dom v = (if changeAsPercent then {["change"; "latest"]}
             else {["change"; "latest"; "percent"]} : gset string).
Proof.
  rewrite assign_cases. destruct (0 <=? position) eqn:Hpos; [|discriminate].
  apply Z.leb_le in Hpos.
  destruct (results !! Z.to_nat position) as [r|] eqn:Er; [|discriminate].
  destruct (map_index r "regularMarketChange") as [| | change | | |] eqn:E1;
    try discriminate.
  destruct (map_index r "regularMarketPrice") as [| | price | | |] eqn:E2;
    try discriminate.
  destruct (map_index r "regularMarketChangePercent") as [| | percent | | |] eqn:E3;
    try discriminate.
  intros E. inversion E; subst. split; [reflexivity|].
  exists r, change, price, percent.
  apply lookup_lt_Some in Er as Hlt.
  split; [lia|]. do 4 (split; [first [reflexivity | assumption]|]).
  destruct changeAsPercent;
    (do 3 (split;
           [repeat first [ rewrite lookup_insert_eq
                         | rewrite lookup_insert_ne by discriminate ];
            rewrite ?lookup_empty; reflexivity|]));
    rewrite !dom_insert_L, dom_empty_L; set_solver.
Qed.


(** ** What a fetch keeps *)

Ltac to_nat_literals :=
  repeat match goal with
         | |- context [Z.to_nat ?i] =>
             let n := eval compute in (Z.to_nat i) in change (Z.to_nat i) with n
         end.

(** One assignment of [extract]: either it panics, and [closing] ends
    the case, or the decode goes on. *)
Ltac assignment step_lemma closing :=
  rewrite step_lemma by lia; to_nat_literals;
  lazymatch goal with
  | |- context [match ?l !! ?k with _ => _ end] =>
      let r := fresh "r" in
      destruct (l !! k) as [r|] eqn:?;
      [ destruct (quote_record float2Str r); [ | closing ] | closing ]
  end.

Lemma extract_keeps_settings (m : Market) (body : option json) :
  settings (snd (extract float2Str body m)) = settings m.
Proof.
  unfold extract.
  destruct (encoding_json.Unmarshal body) as [err|d]; [reflexivity|].
  cbv zeta.
  do 12 assignment extract_step ltac:(reflexivity).
  rewrite extract_name_step. simpl (Yield _).
  destruct (Yield m); [|reflexivity].
  do 2 assignment extract_step ltac:(reflexivity).
  assignment extract_last_step ltac:(reflexivity).
  reflexivity.
Qed.

Lemma Fetch_settings (net : transport) (m : Market) :
  IsClosed (Fetch float2Str net m) = IsClosed m /\
  url (Fetch float2Str net m) = url m /\
  cookies (Fetch float2Str net m) = cookies m /\
  crumb (Fetch float2Str net m) = crumb m /\
  (errors (Fetch float2Str net m) = "" \/
   errors (Fetch float2Str net m) = errors m).
Proof.
  unfold Fetch, Fetch_body, isMarketOpen.
  destruct net; try (simpl; auto 10; fail).
  pose proof (extract_keeps_settings m body) as Hs.
  destruct (extract float2Str body m) as [[[]|p] m']; simpl in Hs;
    unfold settings in Hs; inversion Hs; simpl; auto 10.
Qed.

(** X15. A market made by [NewMarket] reports no error, whatever is
    fetched into it afterwards: after any list of responses and failures
    [Ok] returns [true] and the empty text. *)
Theorem Ok_never_reports_an_error
    (fetched_cookies fetched_crumb : string) (nets : list transport) :
  Ok (Fetch_each float2Str nets (NewMarket fetched_cookies fetched_crumb)) = (true, "").
Proof.
  assert (forall m, errors m = "" -> errors (Fetch_each float2Str nets m) = "") as Hinv.
  { induction nets as [|net nets IH]; intros m Hm; [exact Hm|].
    unfold Fetch_each. simpl. apply IH.
    destruct (Fetch_settings net m) as (_ & _ & _ & _ & [E|E]); congruence. }
  unfold Ok. rewrite Hinv by reflexivity. reflexivity.
Qed.

(** X16. No fetch changes the address, the cookies, the crumb or the
    flag of the closed market: after any list of responses and failures
    they are what they were, so the crumb and cookies of [NewMarket] are
    never renewed and a market made by [NewMarket] is never closed. *)
Theorem Fetch_keeps_the_credential (nets : list transport) (m : Market) :
  url (Fetch_each float2Str nets m) = url m /\
  cookies (Fetch_each float2Str nets m) = cookies m /\
  crumb (Fetch_each float2Str nets m) = crumb m /\
  IsClosed (Fetch_each float2Str nets m) = IsClosed m.
Proof.
  revert m. induction nets as [|net nets IH]; intros m; [auto|].
  unfold Fetch_each. simpl.
  destruct (IH (Fetch float2Str net m)) as (U & C & K & O).
  destruct (Fetch_settings net m) as (O' & U' & C' & K' & _).
  unfold Fetch_each in *. repeat split; congruence.
Qed.

(** X17. A fetch that fails before the first record is decoded leaves
    every indicator record as it was: after an error of the network, and
    after a body in which [extract] finds no result entry (a body that is
    no JSON text or has another shape, no [quoteResponse], an empty
    [result]), the market is the market of before with the error text
    cleared. *)
Theorem early_failure_leaves_the_records (net : transport) (m : Market) :
  match net with
  | Body body => result_array body = []
  | _ => True
  end ->
  Fetch float2Str net m = set_errors "" m.
Proof.
  unfold Fetch, Fetch_body, isMarketOpen, result_array, extract.
  destruct net as [err|err|err|body]; try reflexivity.
  destruct (encoding_json.Unmarshal body) as [err|d]; [reflexivity|].
  cbv zeta. intros ->. rewrite extract_step by lia. reflexivity.
Qed.

(** ** A response that decodes *)

Ltac decoded_step step_lemma :=
  rewrite step_lemma by lia; to_nat_literals; cbn [lookup list_lookup];
  match goal with
  | H : quote_record _ ?r = Some _ |- context [quote_record _ ?r] => rewrite H
  end.

(** A response with fifteen entries or more, the first fifteen holding
    the three numbers each, is decoded without a panic, into the records
    of those fifteen entries. *)
Lemma extract_fifteen (m : Market) (body : option json) :
  (15 <= length (result_array body))%nat ->
  Forall (fun r => is_Some (quote_record float2Str r)) (take 15 (result_array body)) ->
  is_Some (Yield m) ->
  exists m',
    extract float2Str body m = (Returned tt, m') /\
    slots m' = (fun r => quote_record float2Str r) <$> take 15 (result_array body) /\
    settings m' = settings m.
Proof.
  unfold result_array, extract. intros Hlen Hall [g HY].
  destruct (encoding_json.Unmarshal body) as [err|d]; [simpl in Hlen; lia|].
  cbv zeta. generalize dependent (quoteResponse_result d). intros results Hlen Hall.
  do 15 (destruct results as [|? results]; [simpl in Hlen; lia|]).
  clear Hlen. cbn [take] in *.
  repeat match goal with
         | H : Forall _ (_ :: _) |- _ => inversion_clear H
         | H : is_Some (quote_record _ _) |- _ => destruct H
         end.
  eexists. split.
  { do 12 decoded_step extract_step.
    rewrite extract_name_step. simpl (Yield _). rewrite HY.
    do 2 decoded_step extract_step.
    decoded_step extract_last_step.
    reflexivity. }
  split; [|reflexivity].
  cbn [fmap list_fmap].
  repeat match goal with
         | H : quote_record _ ?r = Some _ |- context [quote_record _ ?r] => rewrite H
         end.
  reflexivity.
Qed.

(** X18. [extract] reads the first fifteen entries and nothing after
    them: a result array with fifteen entries or more, the first fifteen
    holding the three numbers each, is decoded without a panic; the slots
    then hold the records of those fifteen entries in their order, and
    what the market holds besides is as before. *)
Theorem extract_reads_the_first_fifteen (m : Market) (body : option json) :
  (15 <= length (result_array body))%nat ->
  Forall (fun r => is_Some (quote_record float2Str r)) (take 15 (result_array body)) ->
  is_Some (Yield m) ->
  exists m',
    extract float2Str body m = (Returned tt, m') /\
    Fetch float2Str (Body body) m = m' /\
    slots m' = (fun r => quote_record float2Str r) <$> take 15 (result_array body) /\
    settings m' = settings m.
Proof.
  intros Hlen Hall HY.
  destruct (extract_fifteen m body Hlen Hall HY) as (m' & E & Hs & Hk).
  exists m'. split; [exact E|]. split; [|split; assumption].
  unfold Fetch, Fetch_body, isMarketOpen. now rewrite E.
Qed.

(** A market is its fifteen records and its settings. *)
Lemma market_ext (m1 m2 : Market) :
  slots m1 = slots m2 -> settings m1 = settings m2 -> m1 = m2.
Proof.
  destruct m1, m2. unfold slots, settings. simpl.
  intros Hs Hk. injection Hs. injection Hk. intros. subst. reflexivity.
Qed.

(** X19. A fetch that succeeds replaces the whole snapshot: its result
    depends on the response and on the settings of the market only, not on
    the records the market held; fetching the same response again changes
    nothing. *)
Theorem successful_Fetch_replaces_the_snapshot (m : Market) (body : option json) :
  (15 <= length (result_array body))%nat ->
  Forall (fun r => is_Some (quote_record float2Str r)) (take 15 (result_array body)) ->
  is_Some (Yield m) ->
  (forall m2 : Market,
     settings m2 = settings m -> is_Some (Yield m2) ->
     Fetch float2Str (Body body) m2 = Fetch float2Str (Body body) m) /\
  Fetch float2Str (Body body) (Fetch float2Str (Body body) m)
  = Fetch float2Str (Body body) m.
Proof.
  intros Hlen Hall HY.
  assert (forall m1, is_Some (Yield m1) ->
            slots (Fetch float2Str (Body body) m1)
            = (fun r => quote_record float2Str r) <$> take 15 (result_array body)
            /\ settings (Fetch float2Str (Body body) m1) = settings m1) as Hfetch.
  { intros m1 H1. destruct (extract_fifteen m1 body Hlen Hall H1) as (m' & E & Hs & Hk).
    unfold Fetch, Fetch_body, isMarketOpen. rewrite E. auto. }
  assert (forall m2 : Market,
            settings m2 = settings m -> is_Some (Yield m2) ->
            Fetch float2Str (Body body) m2 = Fetch float2Str (Body body) m) as Hdep.
  { intros m2 Hk H2. destruct (Hfetch m HY) as [S1 K1]. destruct (Hfetch m2 H2) as [S2 K2].
    apply market_ext; congruence. }
  split; [exact Hdep|].
  apply Hdep.
  - now destruct (Hfetch m HY).
  - now apply Fetch_keeps_Yield_made.
Qed.

(** ** A response that decodes in part *)

(** One assignment of [extract], keeping what was read. *)
Ltac decode_step step_lemma closing :=
  rewrite step_lemma by lia; to_nat_literals;
  lazymatch goal with
  | |- context [match ?l !! ?k with _ => _ end] =>
      let r := fresh "r" in
      destruct (l !! k) as [r|] eqn:?;
      [ destruct (quote_record float2Str r) eqn:?; [ | closing ] | closing ]
  end.

(** The decode has ended, with a panic or without: either it ended at a
    position that was taken to be good, or the slot asked for was
    written before. *)
Ltac written Hgood :=
  first
    [ exfalso;
      match goal with
      | Hq : quote_record _ ?r = None, Hl : _ !! ?j = Some ?r |- _ =>
          destruct (Hgood j r ltac:(lia) Hl); congruence
      end
    | exfalso;
      repeat match goal with
             | H : _ !! _ = Some _ |- _ => apply lookup_lt_Some in H
             | H : _ !! _ = None |- _ => apply lookup_ge_None in H
             end; lia
    | discriminate
    | match goal with
      | Hi : Some ?r' = Some ?r, Hq : quote_record _ ?r' = Some _
        |- _ = Some (quote_record _ ?r) =>
          replace r with r' by congruence; rewrite Hq; reflexivity
      end ].

Lemma extract_writes_good_prefix (m : Market) (body : option json)
    (i : nat) (r : gomap iface) :
  is_Some (Yield m) ->
  (i < 15)%nat ->
  (forall (j : nat) (r' : gomap iface),
     (j <= i)%nat -> result_array body !! j = Some r' ->
     is_Some (quote_record float2Str r')) ->
  result_array body !! i = Some r ->
  slots (snd (extract float2Str body m)) !! i = Some (quote_record float2Str r).
Proof.
  unfold result_array, extract. intros [made HY] Hi Hgood Hr.
  destruct (encoding_json.Unmarshal body) as [err|d]; [discriminate|].
  cbv zeta. generalize dependent (quoteResponse_result d). intros results Hgood Hr.
  do 15 (destruct i as [|i]; [
    do 12 decode_step extract_step ltac:(written Hgood);
    rewrite extract_name_step; simpl (Yield _); rewrite HY;
    do 2 decode_step extract_step ltac:(written Hgood);
    decode_step extract_last_step ltac:(written Hgood);
    written Hgood |]).
  exfalso. lia.
Qed.

(** X20. The decode writes each slot as soon as it has read the entry
    of its position, and a later failure does not take it back: when the
    entries up to a position hold the three numbers each, the slot of
    that position holds the record of its entry after the fetch, whatever
    follows in the array and whether the fetch fails or not. *)
Theorem Fetch_writes_the_slots_before_the_failure (m : Market) (body : option json)
    (i : nat) (r : gomap iface) :
  is_Some (Yield m) ->
  (i < 15)%nat ->
  (forall (j : nat) (r' : gomap iface),
     (j <= i)%nat -> result_array body !! j = Some r' ->
     is_Some (quote_record float2Str r')) ->
  result_array body !! i = Some r ->
  slots (Fetch float2Str (Body body) m) !! i = Some (quote_record float2Str r).
Proof.
  intros HY Hi Hgood Hr.
  rewrite <- (extract_writes_good_prefix m body i r HY Hi Hgood Hr).
  unfold Fetch, Fetch_body, isMarketOpen.
  destruct (extract float2Str body m) as [[[]|p] m']; reflexivity.
Qed.

End MarketMore.

(* ================================================================= *)
(** * Further concrete sessions and responses *)

Section EditorMoreExamples.
#[local] Existing Instance ascii_only.
#[local] Existing Instance TickerSet.

(** Buffer "AAPL", cursor 2, backspace: buffer "APL", cursor 1, drawn
    after the prompt of thirteen bytes. *)
Lemma backspace_at_2_of_AAPL :
  exists w',
    delete_previous_character (session 43 "AAPL" 2 []) = (Returned tt, w') /\
    input (self w') = "APL" /\ cursor (self w') = 1 /\
    screen w' = [DrawLine 13 3 "APL "; SetCursor 14 3].
Proof.
  destruct (backspace_deletes_byte_before_cursor (session 43 "AAPL" 2 []))
    as (w' & E & _ & Hpos).
  { unfold cursor_in_bounds, len; simpl. lia. }
  destruct Hpos as (HI & _ & HC & _ & HS); [simpl; lia|].
  exists w'. split; [exact E|]. split; [rewrite HI; reflexivity|].
  split; [rewrite HC; reflexivity|]. rewrite HS, HI. reflexivity.
Defined.

(** Buffer "AAPL", cursor 2: 'X' and then backspace. *)
Lemma AAPL_X_backspace :
  exists w',
    bind (insert_character 88) (fun _ => delete_previous_character)
      (session 43 "AAPL" 2 []) = (Returned tt, w') /\
    self w' = self (session 43 "AAPL" 2 []) /\
    quotes w' = quotes (session 43 "AAPL" 2 []).
Proof.
  apply insert_then_backspace_restores.
  - unfold cursor_in_bounds, len; simpl. lia.
  - lia.
Defined.

(** The euro sign, three bytes, typed at the end of "AAPL": seven bytes,
    cursor 5. *)
Lemma AAPL_euro_sign :
  exists w',
    insert_character 8364 (session 43 "AAPL" 4 []) = (Returned tt, w') /\
    len (input (self w')) = 7 /\ cursor (self w') = 5.
Proof.
  destruct (wide_rune_leaves_cursor_inside 8364 (session 43 "AAPL" 4 []))
    as (w' & E & HL & _ & HC & _).
  { unfold cursor_in_bounds, len; simpl. lia. }
  { lia. }
  exists w'. split; [exact E|]. split; [rewrite HL | rewrite HC]; reflexivity.
Defined.

(** Buffer "AAPL", cursor 2: both orders of the two moves. *)
Lemma AAPL_left_right_at_2 :
  (exists w', bind move_left (fun _ => move_right) (session 43 "AAPL" 2 [])
                = (Returned tt, w') /\
              self w' = self (session 43 "AAPL" 2 [])) /\
  (exists w', bind move_right (fun _ => move_left) (session 43 "AAPL" 2 [])
                = (Returned tt, w') /\
              self w' = self (session 43 "AAPL" 2 [])).
Proof.
  destruct (move_left_and_move_right_undo (session 43 "AAPL" 2 [])) as [HL HR].
  { unfold cursor_in_bounds, len; simpl. lia. }
  split; [apply HL | apply HR]; unfold len; simpl; lia.
Defined.

(** A session of the add command: 'A', a move to the left, 'B'. *)
Lemma add_session_shows_cursor :
  exists w',
    bind (Prompt 43)
      (fun _ => Handle_each [char 65; key termbox.KeyArrowLeft; char 66])
      (Initialize [] [] new_LineEditor) = (Returned tt, w') /\
    cursor_in_bounds w' /\
    terminal_cursor (screen w') = Some (len (prompt (self w')) + cursor (self w'), 3).
Proof.
  apply terminal_cursor_follows_the_cursor.
  - left. reflexivity.
  - repeat constructor.
Defined.

(** Escape on a session with the set AAPL. *)
Lemma Esc_keeps_the_quotes :
  exists (b : bool) (w' : World) (calls : list call),
    Handle (key termbox.KeyEsc) (session 45 "aapl" 4 ["AAPL"]) = (Returned b, w') /\
    quotes w' = quotes (session 45 "aapl" 4 ["AAPL"]) /\
    screen w' = (screen (session 45 "aapl" 4 ["AAPL"]) ++ calls)%list /\
    Forall on_edit_row calls.
Proof.
  apply only_Enter_touches_quotes_and_table.
  - unfold cursor_in_bounds, len; simpl. lia.
  - discriminate.
Defined.

(** Enter with the add command and the buffer "nvda" on the set AAPL. *)
Lemma Enter_adds_NVDA :
  exists w',
    Handle (key termbox.KeyEnter) (session 43 "nvda" 4 ["AAPL"]) = (Returned true, w') /\
    self w' = self (session 43 "nvda" 4 ["AAPL"]) /\
    quotes w' = ["AAPL"; "NVDA"] /\
    screen w' = [Draw; ClearLine 0 3; HideCursor; Flush].
Proof.
  apply (Enter_adds_and_redraws_when_added
           (key termbox.KeyEnter) (session 43 "nvda" 4 ["AAPL"]) 1 ["AAPL"; "NVDA"]);
    reflexivity.
Defined.

(** Enter with the remove command and a ticker that is not in the set. *)
Lemma Enter_removes_nothing :
  exists w',
    Handle (key termbox.KeyEnter) (session 45 "nvda" 4 ["AAPL"]) = (Returned true, w') /\
    self w' = self (session 45 "nvda" 4 ["AAPL"]) /\
    quotes w' = ["AAPL"] /\
    screen w' = [ClearLine 0 3; HideCursor; Flush].
Proof.
  destruct (Enter_without_change_leaves_the_table
              (key termbox.KeyEnter) (session 45 "nvda" 4 ["AAPL"]))
    as (w' & E & HS & HQ & HC).
  { reflexivity. }
  { discriminate. }
  { intros _. vm_compute. discriminate. }
  exists w'. split; [exact E|]. split; [exact HS|].
  split; [rewrite HQ | rewrite HC]; reflexivity.
Defined.

(** "VD" typed at cursor 1 of "NA". *)
Lemma typing_VD_into_NA :
  exists w',
    Handle_each (char <$> [86; 68]) (session 43 "NA" 1 []) = (Returned tt, w') /\
    input (self w') = "NVDA" /\ cursor (self w') = 3.
Proof.
  destruct (typing_inserts_at_the_cursor [86; 68] (session 43 "NA" 1 []))
    as (w' & E & HI & HC & _).
  { repeat constructor; lia. }
  { unfold cursor_in_bounds, len; simpl. lia. }
  exists w'. split; [exact E|]. split; [rewrite HI | rewrite HC]; reflexivity.
Defined.

(** Backspace three times at cursor 2 of "AAPL". *)
Lemma three_backspaces_at_2_of_AAPL :
  exists w',
    Handle_each (repeat (key termbox.KeyBackspace) 3) (session 43 "AAPL" 2 [])
      = (Returned tt, w') /\
    input (self w') = "PL" /\ cursor (self w') = 0.
Proof.
  destruct (backspaces_delete_back_to_the_beginning 3 (session 43 "AAPL" 2 []))
    as (w' & E & HI & HC & _).
  { unfold cursor_in_bounds, len; simpl. lia. }
  exists w'. split; [exact E|]. split; [rewrite HI | rewrite HC]; reflexivity.
Defined.

(** The buffer " aapl,  msft tsla ". *)
Lemma aapl_msft_tsla_upper_case :
  exists tokens : list string,
    tokenize (session 43 " aapl,  msft tsla " 0 [])
      = (Returned tokens, session 43 " aapl,  msft tsla " 0 []) /\
    Forall (fun t => forall c : ascii, byte_in c t -> is_lower c = false) tokens.
Proof.
  apply tokens_of_ASCII_buffer_are_upper_case. reflexivity.
Defined.

Lemma aapl_msft_tsla_nonempty :
  exists tokens : list string,
    tokenize (session 43 " aapl,  msft tsla " 0 [])
      = (Returned tokens, session 43 " aapl,  msft tsla " 0 []) /\
    tokens <> [] /\
    Forall (fun t => t <> "") tokens.
Proof.
  apply (tokens_nonempty_without_commas_at_the_ends
           (session 43 " aapl,  msft tsla " 0 []) "a"%char "a"%char);
    first [reflexivity | discriminate].
Defined.

End EditorMoreExamples.

(** ** Responses *)

(** The entry of the 10-year yield in a full response. *)
Lemma Yield_entry_record :
  exists v : gmap string string,
    assign float2Str_2dp (result_array (response fifteen_quotes)) 12 false tt
      = (Returned v, tt) /\
    v !! "latest" = Some "4.25" /\ v !! "change" = Some "0.03" /\
    v !! "percent" = Some "0.71%" /\
    dom v = ({["change"; "latest"; "percent"]} : gset string).
Proof.
  assert (assign float2Str_2dp (result_array (response fifteen_quotes)) 12 false tt
          = (Returned (<["percent" := "0.71%"]>
                         (<["latest" := "4.25"]> (<["change" := "0.03"]> ∅))), tt)) as E.
  { vm_compute. reflexivity. }
  eexists. split; [exact E|].
  destruct (assign_makes_the_record float2Str_2dp _ _ _ _ _ _ E)
    as (_ & r & change & price & percent & _ & _ & _ & _ & _ & _ & _ & _ & HD).
  split; [reflexivity|]. split; [reflexivity|]. split; [reflexivity|]. exact HD.
Defined.


Example price_as_string_fails_the_assertion :
  fst (assign float2Str_2dp
         (result_array (response
            [JObject [("regularMarketPrice", JString "4.25");
                      ("regularMarketChange", JNumber 0.5);
                      ("regularMarketChangePercent", JNumber 0.5)]]))
         0 false tt)
  = Panicked InterfaceConversion.
Proof. vm_compute. reflexivity. Qed.

(** An empty result array, and an error of the network. *)
Lemma empty_result_leaves_the_records :
  Fetch float2Str_2dp (Body (response [])) market0 = set_errors "" market0.
Proof.
  apply (early_failure_leaves_the_records float2Str_2dp (Body (response [])) market0).
  vm_compute. reflexivity.
Defined.

Example network_error_leaves_the_records :
  slots (Fetch float2Str_2dp (DoError "context deadline exceeded") market0)
  = slots market0.
Proof. reflexivity. Qed.

(** Sixteen entries: the first fifteen are read. *)

Lemma sixteen_quotes_decode :
  (15 <= length (result_array (response sixteen_quotes)))%nat /\
  Forall (fun r => is_Some (quote_record float2Str_2dp r))
    (take 15 (result_array (response sixteen_quotes))) /\
  is_Some (Yield market0).
Proof.
  split; [vm_compute; lia|]. split; [|eexists; reflexivity].
  apply (bool_decide_unpack _). vm_compute. exact I.
Defined.

Lemma sixteen_quotes_fill_the_slots :
  exists m',
    extract float2Str_2dp (response sixteen_quotes) market0 = (Returned tt, m') /\
    Fetch float2Str_2dp (Body (response sixteen_quotes)) market0 = m' /\
    slots m' = (fun r => quote_record float2Str_2dp r)
                 <$> take 15 (result_array (response sixteen_quotes)) /\
    settings m' = settings market0.
Proof.
  apply extract_reads_the_first_fifteen; apply sixteen_quotes_decode.
Defined.

Lemma sixteen_quotes_replace_the_snapshot :
  (forall m2 : Market,
     settings m2 = settings market0 -> is_Some (Yield m2) ->
     Fetch float2Str_2dp (Body (response sixteen_quotes)) m2
     = Fetch float2Str_2dp (Body (response sixteen_quotes)) market0) /\
  Fetch float2Str_2dp (Body (response sixteen_quotes))
    (Fetch float2Str_2dp (Body (response sixteen_quotes)) market0)
  = Fetch float2Str_2dp (Body (response sixteen_quotes)) market0.
Proof.
  apply successful_Fetch_replaces_the_snapshot; apply sixteen_quotes_decode.
Defined.

(** Fourteen entries: the fetch fails, and the Silver slot, the last one
    the array reaches, holds the record of its entry. *)
Lemma fourteen_quotes_write_Silver :
  exists r : gomap iface,
    result_array (response fourteen_quotes) !! 13%nat = Some r /\
    slots (Fetch float2Str_2dp (Body (response fourteen_quotes)) market0) !! 13%nat
    = Some (quote_record float2Str_2dp r).
Proof.
  assert (Forall (fun r => is_Some (quote_record float2Str_2dp r))
            (result_array (response fourteen_quotes))) as Hall
    by (apply (bool_decide_unpack _); vm_compute; exact I).
  assert (is_Some (result_array (response fourteen_quotes) !! 13%nat)) as [r E]
    by (apply (bool_decide_unpack _); vm_compute; exact I).
  exists r. split; [exact E|].
  apply Fetch_writes_the_slots_before_the_failure.
  - eexists; reflexivity.
  - lia.
  - intros j r' _ Hj. exact (proj1 (Forall_lookup _ _) Hall j r' Hj).
  - exact E.
Defined.
